(** * The dictionary update worker and the toolbar presenter of 10ten-ja-reader

    A shallow embedding of [src/worker/jpdict-worker.ts] and of
    [src/background/browser-action.ts].

    The worker is a single-threaded event handler over its module-level
    variables ([db], [dbIsInitialized], [currentUpdate], [lastUpdateError]).
    It is embedded as a state monad over a record of these variables; every
    call that leaves the worker (a posted message, a call into the dictionary
    store, a console log) is written to an effect log, in program order.
    Rejected promises and thrown exceptions are the [Throw] result.

    The dictionary store is the package [@birchill/jpdict-idb]; it is outside
    the repository.  What the worker reads from it ([state], [version],
    [updateState]) is a record; what the store does on its own (opening,
    failing, completing a step, reporting an error, changing a record) is an
    input of the functions below. *)

From Stdlib Require Import ZArith List String Bool Lia DecimalString QArith.
Import ListNotations.

Open Scope string_scope.
Open Scope list_scope.
Open Scope Z_scope.

Set Implicit Arguments.

(** ** The fragment of JavaScript numbers and dates the worker computes with *)

(** A number is an integer, [-Infinity] (the value of [Math.max] without
    arguments) or [NaN] (the time value of an invalid date). *)
Inductive number : Type :=
| NaN
| NegInfinity
| Num (z : Z).

(** A [Date] object: its time value in milliseconds, or an invalid date. *)
Inductive Date : Type :=
| ValidDate (time : Z)
| InvalidDate.

Definition getTime (d : Date) : number :=
  match d with
  | ValidDate t => Num t
  | InvalidDate => NaN
  end.

(** [new Date(n)]. *)
Definition new_Date (n : number) : Date :=
  match n with
  | Num z => ValidDate z
  | NaN | NegInfinity => InvalidDate
  end.

(** The conversion [Math.max] applies to an argument that is a [Date] or
    [null]: [null] becomes [0], a date becomes its time value. *)
Definition ToNumber (v : option Date) : number :=
  match v with
  | None => Num 0
  | Some d => getTime d
  end.

Definition number_max (a b : number) : number :=
  match a, b with
  | NaN, _ | _, NaN => NaN
  | NegInfinity, x | x, NegInfinity => x
  | Num x, Num y => Num (Z.max x y)
  end.

(** [Math.max.apply(null, l)]. *)
Definition Math_max (l : list number) : number :=
  fold_left number_max l NegInfinity.

(** [a - b]. *)
Definition number_sub (a b : number) : number :=
  match a, b with
  | NaN, _ | _, NaN => NaN
  | NegInfinity, NegInfinity => NaN
  | NegInfinity, Num _ => NegInfinity
  | Num _, NegInfinity => NaN
  | Num x, Num y => Num (x - y)
  end.

(** [a !== 0]. *)
Definition number_is_not_zero (a : number) : bool :=
  match a with
  | Num z => negb (z =? 0)
  | NaN | NegInfinity => true
  end.

(** [a === n] for an optional number [a]. *)
Definition strict_equal (a : option Z) (n : Z) : bool :=
  match a with
  | Some z => z =? n
  | None => false
  end.

(** The text a template literal gives a number. *)
Definition number_toString (a : number) : string :=
  match a with
  | NaN => "NaN"
  | NegInfinity => "-Infinity"
  | Num z => NilZero.string_of_int (Z.to_int z)
  end.

(** ** Data series *)

(** [MajorDataSeries] is the type of [currentUpdate.series]; [DataSeries]
    adds the radicals, which are updated together with the kanji. *)
Inductive MajorDataSeries : Type :=
| Words
| Kanji
| Names.

Inductive DataSeries : Type :=
| Major (s : MajorDataSeries)
| Radicals.

Coercion Major : MajorDataSeries >-> DataSeries.

(** Modelled from the spec: the constant [allMajorDataSeries] is imported from
    the store package and is not under src; it lists the values of
    [MajorDataSeries], the three steps of a cycle (the job's target series is
    Kanji, Names or Words; radicals are not an independent step). *)
Definition allMajorDataSeries : list MajorDataSeries := [Words; Kanji; Names].

(** The string a series is in the source. *)
Definition series_toString (s : DataSeries) : string :=
  match s with
  | Major Words => "words"
  | Major Kanji => "kanji"
  | Major Names => "names"
  | Radicals => "radicals"
  end.

(** Modelled from the spec: the load state of a dataset is a type of the store
    package; the source compares it with 'init' and 'ok' only.  The spec lists
    Uninitialized ('init'), Empty, Ready ('ok') and Error. *)
Inductive DataSeriesState : Type :=
| state_init
| state_empty
| state_ok
| state_error.

Definition is_init (s : DataSeriesState) : bool :=
  match s with state_init => true | _ => false end.

Definition is_ok (s : DataSeriesState) : bool :=
  match s with state_ok => true | _ => false end.

(** The update state the store reports for a series: the fields the source
    reads are [type], [series], [totalProgress] and [lastCheck].  The
    progress is the value of the number the store reports. *)
Inductive UpdateState : Type :=
| idle (lastCheck : option Date)
| checking (series : DataSeries) (lastCheck : option Date)
| updating (series : DataSeries) (totalProgress : Q) (lastCheck : option Date).

Definition lastCheck (u : UpdateState) : option Date :=
  match u with
  | idle c | checking _ c | updating _ _ c => c
  end.

(** An [Error] object, as far as the worker looks at it. *)
Record Error : Type := mkError {
  name : string;
  message : string
}.

(** The argument of the error callback:
    [{ error: Error; nextRetry?: Date; retryCount?: number }]. *)
Record UpdateErrorParams : Type := mkUpdateErrorParams {
  error : Error;
  nextRetry : option Date;
  retryCount : option Z
}.

(** Modelled from the spec: [UpdateErrorState] is a type of the store package;
    it carries the error (the presenter reads its name), the time of the next
    retry and the retry count. *)
Record UpdateErrorState : Type := mkUpdateErrorState {
  updateError_name : string;
  updateError_message : string;
  updateError_nextRetry : option Date;
  updateError_retryCount : option Z
}.

Inductive Severity : Type :=
| warning.

(** The closure of one call of [updateAllSeries]: the variables its callbacks
    [runNextUpdate] and [onUpdateError] captured.  It stands for the pair of
    callbacks handed to [updateWithRetry]. *)
Record UpdateAllSeriesClosure : Type := mkClosure {
  closure_lang : string;
  closure_forceUpdate : bool;
  wasForcedUpdate : bool
}.

(** The module-level variable [currentUpdate]. *)
Record CurrentUpdate : Type := mkCurrentUpdate {
  lang : string;
  series : MajorDataSeries;
  forceUpdate : bool
}.

(** A [toUpdateErrorState] to run the definitions with. *)
Definition sample_toUpdateErrorState (p : UpdateErrorParams) : UpdateErrorState :=
  {| updateError_name := name (error p);
     updateError_message := message (error p);
     updateError_nextRetry := nextRetry p;
     updateError_retryCount := retryCount p |}.

(** Texts of the progress to run the presenter with. *)
Definition sample_step_text (totalProgress : Q) : string := "40".
Definition sample_percent_text (totalProgress : Q) : string := "33".

(** An error to run the definitions with. *)
Definition sample_error : Error := mkError "NetworkError" "fetch failed".

Section Worker.

(** The version record of a dataset is copied, never inspected. *)
Variable DataVersion : Type.

(** [toUpdateErrorState] is a function of the store package. *)
Variable toUpdateErrorState : UpdateErrorParams -> UpdateErrorState.

(** One dataset of the store, as the worker reads it. *)
Record DataSeriesInfo : Type := mkDataSeriesInfo {
  state : DataSeriesState;
  version : option DataVersion;
  updateState : UpdateState
}.

(** The fields of a [JpdictIdb] instance the worker reads. *)
Record JpdictIdb : Type := mkJpdictIdb {
  words : DataSeriesInfo;
  kanji : DataSeriesInfo;
  radicals : DataSeriesInfo;
  names : DataSeriesInfo
}.

(** [db[series]] for a major series. *)
Definition db_series (d : JpdictIdb) (s : MajorDataSeries) : DataSeriesInfo :=
  match s with
  | Words => words d
  | Kanji => kanji d
  | Names => names d
  end.

(** The snapshot: [JpdictState] of [background/jpdict]. *)
Record DataSeriesSnapshot : Type := mkDataSeriesSnapshot {
  snapshot_state : DataSeriesState;
  snapshot_version : option DataVersion
}.

Record JpdictState : Type := mkJpdictState {
  state_words : DataSeriesSnapshot;
  state_kanji : DataSeriesSnapshot;
  state_radicals : DataSeriesSnapshot;
  state_names : DataSeriesSnapshot;
  state_updateState : UpdateState;
  state_updateError : option UpdateErrorState
}.

(** Modelled from the spec: the message constructors of
    [worker/jpdict-worker-messages] are not under src.  The outbound
    notifications are stateUpdated (a snapshot), updateComplete (the last
    check), error (an error and an optional warning severity) and breadcrumb
    (a message). *)
Inductive JpdictEvent : Type :=
| notifyDbStateUpdated (state : JpdictState)
| notifyDbUpdateComplete (lastCheck : option Date)
| notifyError (error : Error) (severity : option Severity)
| leaveBreadcrumb (message : string).

(** What leaves the worker, in program order. *)
Inductive Effect : Type :=
| postMessage (m : JpdictEvent)
| new_JpdictIdb
| addChangeListener
| db_destroy
| requestIdleCallbackPromise (timeout : Z)
| console_log (text : string)
| clearCachedVersionInfo
| updateWithRetry (series : MajorDataSeries) (lang : string)
    (callbacks : UpdateAllSeriesClosure)
| cancelUpdateWithRetry (series : MajorDataSeries).

(** The module-level variables.  [dbIsInitialized] is the value the promise
    of that name resolves to; the handlers that await it run after [initDb]
    has settled. *)
Record World : Type := mkWorld {
  db : option JpdictIdb;
  dbIsInitialized : bool;
  currentUpdate : option CurrentUpdate;
  lastUpdateError : option UpdateErrorState
}.

Definition set_db (v : option JpdictIdb) (w : World) : World :=
  mkWorld v (dbIsInitialized w) (currentUpdate w) (lastUpdateError w).
Definition set_dbIsInitialized (v : bool) (w : World) : World :=
  mkWorld (db w) v (currentUpdate w) (lastUpdateError w).
Definition set_currentUpdate (v : option CurrentUpdate) (w : World) : World :=
  mkWorld (db w) (dbIsInitialized w) v (lastUpdateError w).
Definition set_lastUpdateError (v : option UpdateErrorState) (w : World) : World :=
  mkWorld (db w) (dbIsInitialized w) (currentUpdate w) v.

(** ** The worker monad *)

Inductive Result (A : Type) : Type :=
| Ok (a : A)
| Throw (e : Error)
| OutOfFuel.

Arguments Throw {A} e.
Arguments OutOfFuel {A}.

Definition M (A : Type) : Type := World -> Result A * World * list Effect.

Definition ret {A} (a : A) : M A := fun w => (Ok a, w, []).

Definition bind {A B} (m : M A) (f : A -> M B) : M B := fun w =>
  match m w with
  | (Ok a, w1, o1) =>
      match f a w1 with
      | (r, w2, o2) => (r, w2, o1 ++ o2)
      end
  | (Throw e, w1, o1) => (Throw e, w1, o1)
  | (OutOfFuel, w1, o1) => (OutOfFuel, w1, o1)
  end.

(** [try { m } catch (e) { h e }]. *)
Definition try_catch {A} (m : M A) (h : Error -> M A) : M A := fun w =>
  match m w with
  | (Throw e, w1, o1) =>
      match h e w1 with
      | (r, w2, o2) => (r, w2, o1 ++ o2)
      end
  | other => other
  end.

Definition throw {A} (e : Error) : M A := fun w => (Throw e, w, []).
Definition out_of_fuel {A} : M A := fun w => (OutOfFuel, w, []).
Definition read {A} (f : World -> A) : M A := fun w => (Ok (f w), w, []).
Definition write (f : World -> World) : M unit := fun w => (Ok tt, f w, []).
Definition effect (e : Effect) : M unit := fun w => (Ok tt, w, [e]).

Notation "x <- m ;; k" := (bind m (fun x => k))
  (at level 61, m at next level, right associativity).
Notation "m ;; k" := (bind m (fun _ => k))
  (at level 61, right associativity).

Definition result_of {A} (r : Result A * World * list Effect) : Result A := fst (fst r).
Definition world_of {A} (r : Result A * World * list Effect) : World := snd (fst r).
Definition effects_of {A} (r : Result A * World * list Effect) : list Effect := snd r.

(** The exception of [db!] used where [db] is [undefined]. *)
Definition TypeError_undefined : Error :=
  mkError "TypeError" "Cannot read properties of undefined".

(** ** [getLatestCheckTime] *)

Definition getLatestCheckTime (d : JpdictIdb) : option Date :=
  let latestCheckAsNumber :=
    Math_max (map (fun s => ToNumber (lastCheck (updateState (db_series d s))))
                  allMajorDataSeries) in
  if number_is_not_zero latestCheckAsNumber
  then Some (new_Date latestCheckAsNumber)
  else None.

(** ** [doDbStateNotification]

    [postMessage] of a snapshot does not throw here, so the handler of the
    [try] around it, which only logs, is never entered. *)

Definition doDbStateNotification : M unit := fun w =>
  match db w with
  | None => ret tt w
  | Some d =>
      if is_init (state (words d))
         || is_init (state (kanji d))
         || is_init (state (radicals d))
         || is_init (state (names d))
      then ret tt w
      else
        let lastCheck := getLatestCheckTime d in
        let updateState :=
          match currentUpdate w with
          | Some u => updateState (db_series d (series u))
          | None => idle lastCheck
          end in
        let state :=
          {| state_words := mkDataSeriesSnapshot (state (words d)) (version (words d));
             state_kanji := mkDataSeriesSnapshot (state (kanji d)) (version (kanji d));
             state_radicals :=
               mkDataSeriesSnapshot (state (radicals d)) (version (radicals d));
             state_names := mkDataSeriesSnapshot (state (names d)) (version (names d));
             state_updateState := updateState;
             state_updateError := lastUpdateError w |} in
        effect (postMessage (notifyDbStateUpdated state)) w
  end.

(** ** [cancelUpdate] *)

Definition cancelUpdate : M unit :=
  u <- read currentUpdate;;
  match u with
  | None => ret tt
  | Some u =>
      effect (cancelUpdateWithRetry (series u));;
      write (set_currentUpdate None)
  end.

(** ** The callbacks of [updateAllSeries] *)

(** [onUpdateError(series)(params)]; [now] is the value of [Date.now()]. *)
Definition onUpdateError (series : DataSeries) (now : Z)
    (params : UpdateErrorParams) : M unit :=
  match nextRetry params with
  | Some nextRetry =>
      let diffInMs := number_sub (getTime nextRetry) (Num now) in
      effect (postMessage (leaveBreadcrumb
        ("Encountered " ++ name (error params) ++ " error updating "
         ++ series_toString series ++ " database. Retrying in "
         ++ number_toString diffInMs ++ "ms.")));;
      if strict_equal (retryCount params) 5
      then effect (postMessage (notifyError (error params) (Some warning)))
      else ret tt
  | None =>
      if negb (name (error params) =? "AbortError")%string
         && negb (name (error params) =? "OfflineError")%string
      then effect (postMessage (notifyError (error params) None))
      else effect (postMessage (leaveBreadcrumb
             ("Database update for " ++ series_toString series
              ++ " database encountered " ++ name (error params) ++ " error")))
  end;;
  write (set_lastUpdateError (Some (toUpdateErrorState params)));;
  doDbStateNotification.

(** [runNextUpdate] of the call of [updateAllSeries] whose arguments and
    [wasForcedUpdate] are [c].  The inner result says whether the function
    went on to start a step ([true]) or returned after the last one. *)
Definition runNextUpdate (c : UpdateAllSeriesClosure) : M unit :=
  u <- read currentUpdate;;
  match u with
  | Some u =>
      write (set_lastUpdateError None);;
      effect (postMessage (leaveBreadcrumb
        ("Successfully updated " ++ series_toString (series u) ++ " database")));;
      doDbStateNotification
  | None => ret tt
  end;;
  u <- read currentUpdate;;
  continue <-
    match u with
    | None =>
        write (set_currentUpdate (Some
          {| lang := closure_lang c;
             series := Kanji;
             forceUpdate := closure_forceUpdate c || wasForcedUpdate c |}));;
        ret true
    | Some u =>
        match series u with
        | Kanji =>
            write (set_currentUpdate
                     (Some (mkCurrentUpdate (lang u) Names (forceUpdate u))));;
            ret true
        | Names =>
            write (set_currentUpdate
                     (Some (mkCurrentUpdate (lang u) Words (forceUpdate u))));;
            ret true
        | Words =>
            write (set_currentUpdate None);;
            d <- read db;;
            match d with
            | Some d =>
                effect (postMessage (notifyDbUpdateComplete (getLatestCheckTime d)))
            | None => throw TypeError_undefined
            end;;
            ret false
        end
    end;;
  if continue : bool then
    (if closure_forceUpdate c || wasForcedUpdate c
     then effect clearCachedVersionInfo
     else ret tt);;
    u <- read currentUpdate;;
    match u with
    | Some u => effect (updateWithRetry (series u) (closure_lang c) c)
    | None => throw TypeError_undefined
    end
  else ret tt.

(** ** [updateAllSeries] *)

Definition updateAllSeries (lang_ : string) (forceUpdate_ : bool) : M unit :=
  initialized <- read dbIsInitialized;;
  if negb initialized then ret tt
  else
    u <- read currentUpdate;;
    match u with
    | Some u =>
        if (lang u =? lang_)%string && (forceUpdate u || negb forceUpdate_)
        then ret tt
        else
          let wasForcedUpdate := forceUpdate u in
          cancelUpdate;;
          write (set_currentUpdate None);;
          runNextUpdate (mkClosure lang_ forceUpdate_ wasForcedUpdate)
    | None =>
        runNextUpdate (mkClosure lang_ forceUpdate_ false)
    end.

(** ** [initDb] *)

(** What the store does while it is opened: the instance the k-th
    [new JpdictIdb] gives (as it reads once [ready] has settled), whether its
    [ready] promise resolves ([None]) or rejects, and how the [destroy] at the
    top of the k-th round of the loop ends. *)
Record StoreOpening : Type := mkStoreOpening {
  instance : Z -> JpdictIdb;
  ready : Z -> option Error;
  destroy_outcome : Z -> option Error
}.

(** [await db.destroy()]. *)
Definition await_destroy (outcome : option Error) : M unit :=
  effect db_destroy;;
  match outcome with
  | None => ret tt
  | Some e => throw e
  end.

(** The loop of [initDb], from the value [retryCount] on; [fuel] bounds the
    number of rounds. *)
Fixpoint initDb_loop (store : StoreOpening) (fuel : nat) (retryCount : Z)
    : M JpdictIdb :=
  match fuel with
  | O => out_of_fuel
  | S fuel' =>
      d <- read db;;
      match d with
      | Some _ =>
          try_catch (await_destroy (destroy_outcome store retryCount))
            (fun _ => effect (console_log "Failed to destroy previous database"))
      | None => ret tt
      end;;
      effect new_JpdictIdb;;
      write (set_db (Some (instance store retryCount)));;
      effect addChangeListener;;
      match ready store retryCount with
      | None => ret (instance store retryCount)
      | Some e =>
          if 3 <=? retryCount then
            effect (console_log
              "Giving up opening database. Likely in permanent private browsing mode.");;
            throw e
          else
            let retryCount := retryCount + 1 in
            effect (console_log
              ("Failed to open database. Retrying shortly (attempt: "
               ++ number_toString (Num retryCount) ++ ")..."));;
            effect (requestIdleCallbackPromise 1000);;
            initDb_loop store fuel' retryCount
      end
  end.

Definition initDb (store : StoreOpening) (fuel : nat) : M JpdictIdb :=
  initDb_loop store fuel 0.

(** [dbIsInitialized = initDb().then(() => true).catch(() => false)]. *)
Definition init_dbIsInitialized (store : StoreOpening) (fuel : nat) : M unit :=
  b <- try_catch (initDb store fuel;; ret true) (fun _ => ret false);;
  write (set_dbIsInitialized b).

(** The module-level variables when the script starts. *)
Definition initial_World : World :=
  {| db := None; dbIsInitialized := false;
     currentUpdate := None; lastUpdateError := None |}.

(** ** [self.onmessage] *)

(** The messages the [switch] of the handler has a case for. *)
Inductive JpdictWorkerMessage : Type :=
| querystate
| update (lang : string) (force : bool)
| cancelupdate
| delete.

(** [data] is [None] for an event without data; [destroyed] is how
    [db.destroy()] ends should the message be [delete]. *)
Definition onmessage (data : option JpdictWorkerMessage)
    (destroyed : option Error) : M unit :=
  match data with
  | None => ret tt
  | Some querystate =>
      initialized <- read dbIsInitialized;;
      if initialized then doDbStateNotification else ret tt
  | Some (update lang force) =>
      try_catch (updateAllSeries lang force)
        (fun error => effect (postMessage (notifyError error None)))
  | Some cancelupdate => cancelUpdate
  | Some delete =>
      d <- read db;;
      match d with
      | Some _ =>
          try_catch (await_destroy destroyed)
            (fun error => effect (postMessage (notifyError error None)))
      | None => ret tt
      end
  end.

(** ** [updateBrowserAction] of [background/browser-action.ts] *)

(** The state of the fallback (flat-file) words dictionary: the source
    compares it with 'ok', 'loading' and 'unloaded'; [fallback_error] is any
    other value. *)
Inductive FallbackState : Type :=
| fallback_ok
| fallback_loading
| fallback_unloaded
| fallback_error.

(** [JpdictStateWithFallback]: the snapshot with the state of the fallback
    dictionary added to the words. *)
Record JpdictStateWithFallback : Type := mkJpdictStateWithFallback {
  jpdictState : JpdictState;
  fallbackState : FallbackState
}.

Definition FallbackState_eqb (a b : FallbackState) : bool :=
  match a, b with
  | fallback_ok, fallback_ok
  | fallback_loading, fallback_loading
  | fallback_unloaded, fallback_unloaded
  | fallback_error, fallback_error => true
  | _, _ => false
  end.

Inductive ToolbarIcon : Type :=
| toolbarIcon_default
| toolbarIcon_sky.

(** [browser.i18n.getMessage(key, substitutions)]: the localized text is the
    browser's; the call is kept as it is made. *)
Inductive Tooltip : Type :=
| getMessage (key : string) (substitutions : list string).

Inductive IconPath : Type :=
| path_svg (path : string)
| path_png (p16 p32 p48 : string).

(** The calls into the browser, in program order; the [composeAction] ones
    are made only where the browser has [browser.composeAction]. *)
Inductive BrowserCall : Type :=
| browserAction_setIcon (path : IconPath) (tabId : option Z)
| composeAction_setIcon (path : IconPath)
| browserAction_setBadgeText (text : string) (tabId : option Z)
| composeAction_setBadgeText (text : string)
| browserAction_setBadgeBackgroundColor (color : string) (tabId : option Z)
| composeAction_setBadgeBackgroundColor (color : string)
| throttledSetTitle (title : Tooltip) (tabId : option Z)
| composeAction_setTitle (title : Tooltip).

(** What the build and the browser fix: the flag [__SUPPORTS_SVG_ICONS__],
    whether [browser.composeAction] exists, and the labels of
    [common/data-series-labels]. *)
Variable SUPPORTS_SVG_ICONS : bool.
Variable has_composeAction : bool.
Variable getLocalizedDataSeriesLabel : DataSeries -> string.

(** The two roundings of the progress are computed in floating point (the
    product is rounded to a double before [Math.round] sees it); they are
    taken as they come out, as text: [Math.round(totalProgress * 5) * 20] in
    the name of the icon, and [String(Math.round(totalProgress * 100))] in
    the title. *)
Variable progress_step_text : Q -> string.
Variable progress_percent_text : Q -> string.

(** [browser.composeAction?.f(...)]. *)
Definition composeAction (call : BrowserCall) : list BrowserCall :=
  if has_composeAction then [call] else [].

Definition setIcon (iconFilename : string) (tabId : option Z) : list BrowserCall :=
  if SUPPORTS_SVG_ICONS then
    let details := path_svg ("images/" ++ iconFilename ++ ".svg") in
    [browserAction_setIcon details tabId] ++ composeAction (composeAction_setIcon details)
  else
    let details :=
      path_png ("images/" ++ iconFilename ++ "-16.png")
               ("images/" ++ iconFilename ++ "-32.png")
               ("images/" ++ iconFilename ++ "-48.png") in
    [browserAction_setIcon details tabId] ++ composeAction (composeAction_setIcon details).

Definition seriesColors (s : DataSeries) : string :=
  match s with
  | Major Words => "green"
  | Major Names => "blue"
  | Major Kanji => "purple"
  | Radicals => "purple"
  end.

(** [jpdictState[series].state] for a major series. *)
Definition jpdictState_series (s : JpdictState) (series : MajorDataSeries)
    : DataSeriesSnapshot :=
  match series with
  | Words => state_words s
  | Kanji => state_kanji s
  | Names => state_names s
  end.

Definition hasNotOkDatabase (s : JpdictState) : bool :=
  existsb (fun series => negb (is_ok (snapshot_state (jpdictState_series s series))))
          allMajorDataSeries.

(** The condition of the warning overlay. *)
Definition showsUpdateError (s : JpdictState) : bool :=
  hasNotOkDatabase s
  && match state_updateError s with
     | Some updateError =>
         negb (updateError_name updateError =? "AbortError")%string
         && negb (updateError_name updateError =? "QuotaExceededError")%string
     | None => false
     end.

Definition updateBrowserAction (enabled : bool) (st : JpdictStateWithFallback)
    (tabId : option Z) (toolbarIcon : ToolbarIcon) : list BrowserCall :=
  let iconFilenameParts := ["10ten"] in
  let iconFilenameParts :=
    match toolbarIcon with
    | toolbarIcon_sky => iconFilenameParts ++ ["sky"]
    | toolbarIcon_default => iconFilenameParts
    end in
  let '(iconFilenameParts, tooltip) :=
    if enabled then
      let jpdictWords := snapshot_state (state_words (jpdictState st)) in
      let fallbackWords := fallbackState st in
      if is_ok jpdictWords || FallbackState_eqb fallbackWords fallback_ok then
        (iconFilenameParts, getMessage "command_toggle_enabled" [])
      else if is_init jpdictWords || FallbackState_eqb fallbackWords fallback_loading then
        (iconFilenameParts, getMessage "command_toggle_loading" [])
      else if FallbackState_eqb fallbackWords fallback_unloaded then
        (iconFilenameParts, getMessage "command_toggle_enabled" [])
      else
        (iconFilenameParts ++ ["error"], getMessage "error_loading_dictionary" [])
    else
      (iconFilenameParts ++ ["disabled"], getMessage "command_toggle_disabled" []) in
  let '(iconFilenameParts, tooltip) :=
    match state_updateState (jpdictState st) with
    | checking series _ =>
        (iconFilenameParts ++ ["0p"; seriesColors series],
         getMessage "command_toggle_checking" [])
    | updating series totalProgress _ =>
        let iconFilenameParts :=
          if negb (existsb (String.eqb "error") iconFilenameParts)
          then iconFilenameParts
               ++ [(progress_step_text totalProgress ++ "p")%string;
                   seriesColors series]
          else iconFilenameParts in
        let dbLabel := getLocalizedDataSeriesLabel series in
        let progressAsPercent := progress_percent_text totalProgress in
        (iconFilenameParts,
         getMessage "command_toggle_downloading" [dbLabel; progressAsPercent])
    | idle _ => (iconFilenameParts, tooltip)
    end in
  let iconFilename := String.concat "-" iconFilenameParts in
  let icon_calls := setIcon iconFilename tabId in
  let '(badge_calls, tooltip) :=
    if showsUpdateError (jpdictState st) then
      ([browserAction_setBadgeText "!" tabId]
       ++ composeAction (composeAction_setBadgeText "!")
       ++ [browserAction_setBadgeBackgroundColor "yellow" tabId]
       ++ composeAction (composeAction_setBadgeBackgroundColor "yellow"),
       getMessage "command_toggle_update_error" [])
    else
      ([browserAction_setBadgeText "" tabId]
       ++ composeAction (composeAction_setBadgeText ""),
       tooltip) in
  icon_calls ++ badge_calls
  ++ [throttledSetTitle tooltip tabId]
  ++ composeAction (composeAction_setTitle tooltip).

(** The badge texts a list of calls sets on the toolbar button. *)
Fixpoint badge_texts (calls : list BrowserCall) : list string :=
  match calls with
  | [] => []
  | browserAction_setBadgeText text _ :: rest => text :: badge_texts rest
  | _ :: rest => badge_texts rest
  end.

(** ** The worker as an event handler *)

(** Everything that runs worker code once [initDb] has settled: a message,
    the change listener of the store, and the two callbacks given to
    [updateWithRetry].  [ev_store] is the store rewriting the records of the
    instance behind [db]; it runs no worker code. *)
Inductive WorkerEvent : Type :=
| ev_message (data : option JpdictWorkerMessage) (destroyed : option Error)
| ev_changed
| ev_updateComplete (callbacks : UpdateAllSeriesClosure)
| ev_updateError (series : DataSeries) (now : Z) (params : UpdateErrorParams)
| ev_store (d : JpdictIdb).

Definition handle (e : WorkerEvent) : M unit :=
  match e with
  | ev_message data destroyed => onmessage data destroyed
  | ev_changed => doDbStateNotification
  | ev_updateComplete c => runNextUpdate c
  | ev_updateError series now params => onUpdateError series now params
  | ev_store d =>
      write (fun w => match db w with
                      | Some _ => set_db (Some d) w
                      | None => w
                      end)
  end.

Fixpoint run (events : list WorkerEvent) : M unit :=
  match events with
  | [] => ret tt
  | e :: rest => handle e;; run rest
  end.


(** *** Reading an effect log *)

(** The series of the steps started, in order. *)
Fixpoint steps_started (es : list Effect) : list MajorDataSeries :=
  match es with
  | [] => []
  | updateWithRetry s _ _ :: rest => s :: steps_started rest
  | _ :: rest => steps_started rest
  end.

(** The payloads of the updateComplete notifications, in order. *)
Fixpoint updateCompletes (es : list Effect) : list (option Date) :=
  match es with
  | [] => []
  | postMessage (notifyDbUpdateComplete c) :: rest => c :: updateCompletes rest
  | _ :: rest => updateCompletes rest
  end.

(** The snapshots published, in order. *)
Fixpoint snapshots (es : list Effect) : list JpdictState :=
  match es with
  | [] => []
  | postMessage (notifyDbStateUpdated s) :: rest => s :: snapshots rest
  | _ :: rest => snapshots rest
  end.

(** The error notifications, with their severity, in order. *)
Fixpoint errors_notified (es : list Effect) : list (Error * option Severity) :=
  match es with
  | [] => []
  | postMessage (notifyError e sev) :: rest => (e, sev) :: errors_notified rest
  | _ :: rest => errors_notified rest
  end.

(** The breadcrumbs, in order. *)
Fixpoint breadcrumbs (es : list Effect) : list string :=
  match es with
  | [] => []
  | postMessage (leaveBreadcrumb m) :: rest => m :: breadcrumbs rest
  | _ :: rest => breadcrumbs rest
  end.

(** The number of store instances created. *)
Fixpoint instances_created (es : list Effect) : nat :=
  match es with
  | [] => O
  | new_JpdictIdb :: rest => S (instances_created rest)
  | _ :: rest => instances_created rest
  end.

Definition is_warning (n : Error * option Severity) : bool :=
  match snd n with
  | Some warning => true
  | None => false
  end.

(** No dataset of the snapshot is uninitialized. *)
Definition snapshot_initialized (s : JpdictState) : bool :=
  negb (is_init (snapshot_state (state_words s)))
  && negb (is_init (snapshot_state (state_kanji s)))
  && negb (is_init (snapshot_state (state_radicals s)))
  && negb (is_init (snapshot_state (state_names s))).

(** What a step is started with: the cache is cleared first when the cycle
    is forced. *)
Definition start_step (c : UpdateAllSeriesClosure) (s : MajorDataSeries) : list Effect :=
  (if closure_forceUpdate c || wasForcedUpdate c then [clearCachedVersionInfo] else [])
  ++ [updateWithRetry s (closure_lang c) c].

(** A request is accepted unless a job runs for the same language that is
    forced, or the request is not forced. *)
Definition accepted (w : World) (lang_ : string) (force : bool) : bool :=
  match currentUpdate w with
  | None => true
  | Some u => negb ((lang u =? lang_)%string && (forceUpdate u || negb force))
  end.

(** The number of error notifications of warning severity. *)
Definition warnings (es : list Effect) : nat :=
  List.length (filter is_warning (errors_notified es)).

(** The error callbacks of one retry sequence: the store reports each failed
    attempt with the time of the next one and a count that goes up by one,
    from [first] on. *)
Fixpoint retry_sequence (series : DataSeries) (first : Z)
    (retries : list (Error * Date * Z)) : list WorkerEvent :=
  match retries with
  | [] => []
  | (e, nextRetry, now) :: rest =>
      ev_updateError series now (mkUpdateErrorParams e (Some nextRetry) (Some first))
      :: retry_sequence series (first + 1) rest
  end.

(** What a round of the loop of [initDb] does before it awaits [ready]:
    it destroys the instance of the round before, if there is one, and
    creates the next. *)
Definition open_effects (store : StoreOpening) (retryCount : Z)
    (previous : option JpdictIdb) : list Effect :=
  match previous with
  | Some _ =>
      db_destroy
      :: match destroy_outcome store retryCount with
         | Some _ => [console_log "Failed to destroy previous database"]
         | None => []
         end
  | None => []
  end
  ++ [new_JpdictIdb; addChangeListener].

(** What the loop does between a failed round and the next: the log and the
    wait for an idle period, at most 1000 ms. *)
Definition backoff_effects (retryCount : Z) : list Effect :=
  [console_log ("Failed to open database. Retrying shortly (attempt: "
                ++ number_toString (Num retryCount) ++ ")...");
   requestIdleCallbackPromise 1000].

Definition giving_up : Effect :=
  console_log "Giving up opening database. Likely in permanent private browsing mode.".

(** Messages that request an update or query the state. *)
Definition update_or_query (e : WorkerEvent) : bool :=
  match e with
  | ev_message (Some (update _ _)) _ | ev_message (Some querystate) _ => true
  | _ => false
  end.

(** The store is absent or one of its four datasets is uninitialized. *)
Definition unresolved (w : World) : Prop :=
  match db w with
  | None => True
  | Some d =>
      state (words d) = state_init \/ state (kanji d) = state_init
      \/ state (radicals d) = state_init \/ state (names d) = state_init
  end.

(** The forced flag a new request inherits from the job it supersedes. *)
Definition inherited_force (w : World) : bool :=
  match currentUpdate w with
  | Some u => forceUpdate u
  | None => false
  end.

(** *** The words of the specification, for comparison *)

(** The latest of a list of check times, none when there is no check time. *)
Fixpoint max_lastCheck (l : list (option Z)) : option Z :=
  match l with
  | [] => None
  | None :: rest => max_lastCheck rest
  | Some t :: rest =>
      match max_lastCheck rest with
      | None => Some t
      | Some t' => Some (Z.max t t')
      end
  end.

(** The check time of a dataset as a time value, where it is a valid date. *)
Definition check_time (i : DataSeriesInfo) : option Z :=
  match lastCheck (updateState i) with
  | Some (ValidDate t) => Some t
  | _ => None
  end.

(** A check time the store sets: none, or a valid date after the epoch. *)
Definition check_time_wf (i : DataSeriesInfo) : Prop :=
  match lastCheck (updateState i) with
  | None => True
  | Some (ValidDate t) => 0 < t
  | Some InvalidDate => False
  end.

(** The time value [Math.max] sees for the check time of a dataset: 0 where
    there is none. *)
Definition time_or_epoch (i : DataSeriesInfo) : Z :=
  match lastCheck (updateState i) with
  | Some (ValidDate t) => t
  | _ => 0
  end.

(** *** Sample values *)

Definition info (s : DataSeriesState) (check : option Z) : DataSeriesInfo :=
  {| state := s; version := None; updateState := idle (option_map ValidDate check) |}.

(** A store with every dataset in the state [s] and never checked. *)
Definition db_all (s : DataSeriesState) : JpdictIdb :=
  {| words := info s None; kanji := info s None;
     radicals := info s None; names := info s None |}.

(** A ready store where only the radicals have a check time. *)
Definition db_radicals_checked : JpdictIdb :=
  {| words := info state_ok None; kanji := info state_ok None;
     radicals := info state_ok (Some 100); names := info state_ok None |}.

(** A ready store checked at different times. *)
Definition db_checked : JpdictIdb :=
  {| words := info state_ok (Some 50); kanji := info state_ok (Some 70);
     radicals := info state_ok (Some 100); names := info state_ok None |}.

Definition world_idle (d : JpdictIdb) : World :=
  {| db := Some d; dbIsInitialized := true;
     currentUpdate := None; lastUpdateError := None |}.

Definition world_running (d : JpdictIdb) (u : CurrentUpdate) : World :=
  {| db := Some d; dbIsInitialized := true;
     currentUpdate := Some u; lastUpdateError := None |}.

(** A store that never opens; each instance ends in the error state. *)
Definition store_never_opens : StoreOpening :=
  {| instance := fun _ => db_all state_error;
     ready := fun _ => Some (mkError "InvalidStateError" "cannot open");
     destroy_outcome := fun _ => None |}.

(** ** More of the two files *)

(** [setDefaultToolbarIcon] of [background/browser-action.ts]; [setIcon] is
    called without a tab. *)
Definition setDefaultToolbarIcon (toolbarIcon : ToolbarIcon) : list BrowserCall :=
  let iconFilename :=
    match toolbarIcon with
    | toolbarIcon_sky => "10ten-disabled"
    | toolbarIcon_default => "10ten-sky-disabled"
    end in
  setIcon iconFilename None.

(** *** Reading an effect log, continued *)

(** The number of [db.destroy()] calls. *)
Fixpoint destroys (es : list Effect) : nat :=
  match es with
  | [] => O
  | db_destroy :: rest => S (destroys rest)
  | _ :: rest => destroys rest
  end.

Definition is_console_log (e : Effect) : bool :=
  match e with
  | console_log _ => true
  | _ => false
  end.

(** The log without what goes to the console. *)
Definition without_logs (es : list Effect) : list Effect :=
  filter (fun e => negb (is_console_log e)) es.

Definition is_postMessage (e : Effect) : bool :=
  match e with
  | postMessage _ => true
  | _ => false
  end.

(** The calls that drive an update in the store. *)
Definition is_update_call (e : Effect) : bool :=
  match e with
  | clearCachedVersionInfo | updateWithRetry _ _ _ | cancelUpdateWithRetry _ => true
  | _ => false
  end.

(** *** Reading the calls of the presenter *)

(** The titles set on the toolbar button. *)
Fixpoint titles (calls : list BrowserCall) : list Tooltip :=
  match calls with
  | [] => []
  | throttledSetTitle title _ :: rest => title :: titles rest
  | _ :: rest => titles rest
  end.

(** The icons set on the toolbar button. *)
Fixpoint icons (calls : list BrowserCall) : list IconPath :=
  match calls with
  | [] => []
  | browserAction_setIcon path _ :: rest => path :: icons rest
  | _ :: rest => icons rest
  end.

Definition is_composeAction_call (c : BrowserCall) : bool :=
  match c with
  | composeAction_setIcon _ | composeAction_setBadgeText _
  | composeAction_setBadgeBackgroundColor _ | composeAction_setTitle _ => true
  | _ => false
  end.

(** The call on the compose action that goes with a call on the toolbar
    button: the same call without the tab. *)
Definition composeAction_counterpart (c : BrowserCall) : BrowserCall :=
  match c with
  | browserAction_setIcon path _ => composeAction_setIcon path
  | browserAction_setBadgeText text _ => composeAction_setBadgeText text
  | browserAction_setBadgeBackgroundColor color _ =>
      composeAction_setBadgeBackgroundColor color
  | throttledSetTitle title _ => composeAction_setTitle title
  | other => other
  end.

(** The name of the plain icon of a style. *)
Definition style_icon (toolbarIcon : ToolbarIcon) : string :=
  match toolbarIcon with
  | toolbarIcon_default => "10ten"
  | toolbarIcon_sky => "10ten-sky"
  end.

(** Neither the database nor the fallback has words and neither is still
    coming: the words are not 'ok' and not 'init', and the fallback is not
    'ok', 'loading' or 'unloaded'. *)
Definition no_dictionary (st : JpdictStateWithFallback) : bool :=
  negb (is_ok (snapshot_state (state_words (jpdictState st))))
  && negb (is_init (snapshot_state (state_words (jpdictState st))))
  && FallbackState_eqb (fallbackState st) fallback_error.

(** A store whose first [k] instances fail to open and whose next one opens,
    ready; [destroy_fails] says whether destroying an instance fails. *)
Definition store_opens_at (k : Z) (destroy_fails : bool) : StoreOpening :=
  {| instance := fun _ => db_all state_ok;
     ready := fun j => if j <? k then Some sample_error else None;
     destroy_outcome := fun _ => if destroy_fails then Some sample_error else None |}.

(** A snapshot with every dataset in the state [s] and the fallback not
    loaded. *)
Definition sample_snapshot (s : DataSeriesState) (u : UpdateState)
    (e : option UpdateErrorState) : JpdictStateWithFallback :=
  {| jpdictState :=
       {| state_words := mkDataSeriesSnapshot s None;
          state_kanji := mkDataSeriesSnapshot s None;
          state_radicals := mkDataSeriesSnapshot s None;
          state_names := mkDataSeriesSnapshot s None;
          state_updateState := u;
          state_updateError := e |};
     fallbackState := fallback_unloaded |}.


(** * Properties *)

Unset Implicit Arguments.

(** ** The monad *)

Lemma bind_Ok {A B} (m : M A) (f : A -> M B) w a w1 o1 :
  m w = (Ok a, w1, o1) ->
  bind m f w = (result_of (f a w1), world_of (f a w1), o1 ++ effects_of (f a w1)).
Proof.
  intros H. unfold bind. rewrite H.
  destruct (f a w1) as [[r w2] o2]. reflexivity.
Qed.

Lemma triple_eta {A} (r : Result A * World * list Effect) :
  r = (result_of r, world_of r, effects_of r).
Proof. destruct r as [[? ?] ?]. reflexivity. Qed.

(** ** Reading a log that is an append *)

Lemma steps_started_app a b :
  steps_started (a ++ b) = steps_started a ++ steps_started b.
Proof.
  induction a as [|e a IH]; simpl; [reflexivity|].
  destruct e; simpl; rewrite ?IH; reflexivity.
Qed.


Lemma snapshots_app a b : snapshots (a ++ b) = snapshots a ++ snapshots b.
Proof.
  induction a as [|e a IH]; simpl; [reflexivity|].
  destruct e as [[]| | | | | | | |]; simpl; rewrite ?IH; reflexivity.
Qed.

Lemma errors_notified_app a b :
  errors_notified (a ++ b) = errors_notified a ++ errors_notified b.
Proof.
  induction a as [|e a IH]; simpl; [reflexivity|].
  destruct e as [[]| | | | | | | |]; simpl; rewrite ?IH; reflexivity.
Qed.

(** ** [doDbStateNotification] *)

Lemma is_init_true s : is_init s = true <-> s = state_init.
Proof. destruct s; simpl; split; congruence. Qed.

Lemma unresolved_dec w :
  unresolved w \/
  exists d, db w = Some d
    /\ is_init (state (words d)) || is_init (state (kanji d))
       || is_init (state (radicals d)) || is_init (state (names d)) = false.
Proof.
  unfold unresolved. destruct (db w) as [d|]; [|left; exact I].
  destruct (is_init (state (words d))) eqn:E1;
    [left; left; apply is_init_true; exact E1|].
  destruct (is_init (state (kanji d))) eqn:E2;
    [left; right; left; apply is_init_true; exact E2|].
  destruct (is_init (state (radicals d))) eqn:E3;
    [left; right; right; left; apply is_init_true; exact E3|].
  destruct (is_init (state (names d))) eqn:E4;
    [left; right; right; right; apply is_init_true; exact E4|].
  right. exists d. rewrite E1, E2, E3, E4. split; reflexivity.
Qed.

Lemma doDbStateNotification_unresolved w :
  unresolved w -> doDbStateNotification w = (Ok tt, w, []).
Proof.
  unfold unresolved, doDbStateNotification.
  destruct (db w) as [d|]; [|reflexivity].
  intros [H|[H|[H|H]]]; rewrite H; simpl;
    rewrite ?orb_true_r; reflexivity.
Qed.

(** The snapshot [doDbStateNotification] builds from a resolved store. *)
Lemma doDbStateNotification_resolved w d :
  db w = Some d ->
  is_init (state (words d)) || is_init (state (kanji d))
  || is_init (state (radicals d)) || is_init (state (names d)) = false ->
  exists s,
    doDbStateNotification w = (Ok tt, w, [postMessage (notifyDbStateUpdated s)])
    /\ snapshot_initialized s = true
    /\ state_updateError s = lastUpdateError w
    /\ state_updateState s =
         match currentUpdate w with
         | Some u => updateState (db_series d (series u))
         | None => idle (getLatestCheckTime d)
         end.
Proof.
  intros Hd Hi. unfold doDbStateNotification. rewrite Hd, Hi.
  eexists. split; [reflexivity|]. simpl.
  unfold snapshot_initialized; simpl.
  repeat (apply orb_false_elim in Hi; destruct Hi as [Hi ?]).
  repeat split.
  rewrite Hi, H, H0, H1. reflexivity.
Qed.

(** It never fails, never changes a variable, and posts at most one message,
    a snapshot without uninitialized dataset. *)
Lemma doDbStateNotification_cases w :
  doDbStateNotification w = (Ok tt, w, [])
  \/ exists s,
       doDbStateNotification w = (Ok tt, w, [postMessage (notifyDbStateUpdated s)])
       /\ snapshot_initialized s = true.
Proof.
  destruct (unresolved_dec w) as [H|(d & Hd & Hi)].
  - left. apply doDbStateNotification_unresolved, H.
  - right. destruct (doDbStateNotification_resolved w d Hd Hi) as (s & H1 & H2 & _).
    exists s. split; assumption.
Qed.

(** ** [cancelUpdate] *)

Lemma cancelUpdate_idle w :
  currentUpdate w = None -> cancelUpdate w = (Ok tt, w, []).
Proof.
  intros H. unfold cancelUpdate, bind, read. rewrite H. reflexivity.
Qed.

Lemma cancelUpdate_running w u :
  currentUpdate w = Some u ->
  cancelUpdate w = (Ok tt, set_currentUpdate None w, [cancelUpdateWithRetry (series u)]).
Proof.
  intros H. unfold cancelUpdate, bind, read. rewrite H. reflexivity.
Qed.

(** ** [onUpdateError] *)

(** What the error callback posts before it records the error. *)
Lemma onUpdateError_eq series now params w :
  let w' := set_lastUpdateError (Some (toUpdateErrorState params)) w in
  exists pre,
    onUpdateError series now params w
    = (Ok tt, w', pre ++ effects_of (doDbStateNotification w'))
    /\ snapshots pre = [] /\ updateCompletes pre = [] /\ steps_started pre = []
    /\ match nextRetry params with
       | Some _ =>
           List.length (breadcrumbs pre) = 1%nat
           /\ errors_notified pre =
                if strict_equal (retryCount params) 5
                then [(error params, Some warning)]
                else []
       | None =>
           if (name (error params) =? "AbortError")%string
              || (name (error params) =? "OfflineError")%string
           then List.length (breadcrumbs pre) = 1%nat /\ errors_notified pre = []
           else breadcrumbs pre = [] /\ errors_notified pre = [(error params, None)]
       end.
Proof.
  intros w'.
  assert (Hd : doDbStateNotification w'
               = (Ok tt, w', effects_of (doDbStateNotification w'))).
  { destruct (doDbStateNotification_cases w') as [H|(s & H & _)];
      rewrite H; reflexivity. }
  set (es := effects_of (doDbStateNotification w')) in *. clearbody es.
  unfold onUpdateError.
  destruct (nextRetry params) as [t|].
  - destruct (strict_equal (retryCount params) 5) eqn:E.
    + eexists [_; _]. split.
      * unfold bind, effect, write, ret. fold w'. rewrite Hd. reflexivity.
      * repeat split.
    + eexists [_]. split.
      * unfold bind, effect, write, ret. fold w'. rewrite Hd. reflexivity.
      * repeat split.
  - destruct (name (error params) =? "AbortError")%string;
      [|destruct (name (error params) =? "OfflineError")%string];
      eexists [_]; (split;
        [unfold bind, effect, write, ret; cbn [negb andb]; fold w';
         rewrite Hd; reflexivity
        |repeat split]).
Qed.

(** ** [runNextUpdate] *)

Lemma doDbStateNotification_eta w :
  doDbStateNotification w = (Ok tt, w, effects_of (doDbStateNotification w)).
Proof.
  destruct (doDbStateNotification_cases w) as [H|(s & H & _)];
    rewrite H; reflexivity.
Qed.

(** With no job, [runNextUpdate] creates one at the kanji step. *)
Lemma runNextUpdate_fresh c w :
  currentUpdate w = None ->
  runNextUpdate c w
  = (Ok tt,
     set_currentUpdate
       (Some (mkCurrentUpdate (closure_lang c) Kanji
                (closure_forceUpdate c || wasForcedUpdate c))) w,
     start_step c Kanji).
Proof.
  intros H. destruct w as [d i cu lue]. simpl in H. subst cu.
  unfold runNextUpdate, start_step, bind, read, write, effect, ret. simpl.
  destruct (closure_forceUpdate c || wasForcedUpdate c); reflexivity.
Qed.

(** With a job at the kanji or the names step, it reports the step done and
    starts the next one. *)
Lemma runNextUpdate_advance c w u s' :
  currentUpdate w = Some u ->
  (series u = Kanji /\ s' = Names) \/ (series u = Names /\ s' = Words) ->
  let w1 := set_lastUpdateError None w in
  runNextUpdate c w
  = (Ok tt,
     set_currentUpdate (Some (mkCurrentUpdate (lang u) s' (forceUpdate u))) w1,
     postMessage (leaveBreadcrumb
       ("Successfully updated " ++ series_toString (series u) ++ " database"))
     :: effects_of (doDbStateNotification w1) ++ start_step c s').
Proof.
  intros H Hs w1. subst w1. destruct w as [d i cu lue]. simpl in H. subst cu.
  unfold runNextUpdate, start_step, bind, read, write, effect, ret.
  cbn [currentUpdate set_lastUpdateError db dbIsInitialized lastUpdateError].
  rewrite doDbStateNotification_eta.
  set (es := effects_of _). clearbody es.
  destruct u as [l s f]. simpl in Hs.
  destruct Hs as [[-> ->]|[-> ->]]; simpl;
    destruct (closure_forceUpdate c || wasForcedUpdate c); reflexivity.
Qed.

(** With a job at the words step, it reports the step done, clears the job
    and posts the updateComplete notification. *)
Lemma runNextUpdate_last c w u d :
  currentUpdate w = Some u -> series u = Words -> db w = Some d ->
  let w1 := set_lastUpdateError None w in
  runNextUpdate c w
  = (Ok tt,
     set_currentUpdate None w1,
     postMessage (leaveBreadcrumb "Successfully updated words database")
     :: effects_of (doDbStateNotification w1)
     ++ [postMessage (notifyDbUpdateComplete (getLatestCheckTime d))]).
Proof.
  intros H Hs Hd w1. subst w1. destruct w as [d' i cu lue]. simpl in H, Hd.
  subst cu d'.
  unfold runNextUpdate, bind, read, write, effect, ret.
  cbn [currentUpdate set_lastUpdateError db dbIsInitialized lastUpdateError].
  rewrite doDbStateNotification_eta.
  set (es := effects_of _). clearbody es.
  destruct u as [l s f]. simpl in Hs. subst s. simpl.
  reflexivity.
Qed.

(** ** [updateAllSeries] *)

Lemma updateAllSeries_uninitialized lang_ force w :
  dbIsInitialized w = false -> updateAllSeries lang_ force w = (Ok tt, w, []).
Proof.
  intros H. unfold updateAllSeries, bind, read. rewrite H. reflexivity.
Qed.

Lemma updateAllSeries_duplicate lang_ force w u :
  currentUpdate w = Some u -> lang u = lang_ ->
  forceUpdate u = true \/ force = false ->
  updateAllSeries lang_ force w = (Ok tt, w, []).
Proof.
  intros Hu Hl Hf. unfold updateAllSeries, bind, read.
  destruct (dbIsInitialized w); [|reflexivity]. simpl.
  rewrite Hu, Hl, String.eqb_refl.
  destruct Hf as [->| ->]; simpl; rewrite ?orb_true_r; reflexivity.
Qed.

(** An accepted request cancels the job it supersedes and starts a job at the
    kanji step, forced when the request or the superseded job is. *)
Lemma updateAllSeries_accepted lang_ force w :
  dbIsInitialized w = true -> accepted w lang_ force = true ->
  updateAllSeries lang_ force w
  = (Ok tt,
     set_currentUpdate
       (Some (mkCurrentUpdate lang_ Kanji (force || inherited_force w))) w,
     match currentUpdate w with
     | Some u => [cancelUpdateWithRetry (series u)]
     | None => []
     end
     ++ start_step (mkClosure lang_ force (inherited_force w)) Kanji).
Proof.
  intros Hi Ha. destruct w as [d i cu lue]. simpl in Hi. subst i.
  unfold accepted, inherited_force in *. simpl in *.
  unfold updateAllSeries, bind, read. simpl.
  destruct cu as [u|].
  - apply negb_true_iff in Ha. rewrite Ha.
    unfold cancelUpdate, bind, read, write, effect. simpl.
    rewrite runNextUpdate_fresh by reflexivity. reflexivity.
  - rewrite runNextUpdate_fresh by reflexivity. reflexivity.
Qed.

(** ** Sequences of events *)

Lemma run_cons e rest w w1 o1 :
  handle e w = (Ok tt, w1, o1) ->
  run (e :: rest) w
  = (result_of (run rest w1), world_of (run rest w1), o1 ++ effects_of (run rest w1)).
Proof.
  intros H. simpl.
  exact (bind_Ok (handle e) (fun _ => run rest) w tt w1 o1 H).
Qed.




Lemma try_catch_Ok {A} (m : M A) h w a w1 o1 :
  m w = (Ok a, w1, o1) -> try_catch m h w = (Ok a, w1, o1).
Proof. intros H. unfold try_catch. rewrite H. reflexivity. Qed.

Lemma doDbStateNotification_log w :
  steps_started (effects_of (doDbStateNotification w)) = []
  /\ updateCompletes (effects_of (doDbStateNotification w)) = [].
Proof.
  destruct (doDbStateNotification_cases w) as [H|(s & H & _)]; rewrite H;
    split; reflexivity.
Qed.






(** With check times that are absent or valid dates after the epoch,
    [getLatestCheckTime] is the latest check time of the words, kanji and
    names datasets. *)
Lemma getLatestCheckTime_major (d : JpdictIdb) :
  check_time_wf (words d) -> check_time_wf (kanji d) -> check_time_wf (names d) ->
  getLatestCheckTime d
  = option_map ValidDate
      (max_lastCheck [check_time (words d); check_time (kanji d); check_time (names d)]).
Proof.
  unfold getLatestCheckTime, check_time_wf, check_time, allMajorDataSeries, Math_max.
  cbn [map db_series fold_left].
  destruct (lastCheck (updateState (words d))) as [[a|]|];
    destruct (lastCheck (updateState (kanji d))) as [[b|]|];
    destruct (lastCheck (updateState (names d))) as [[c|]|];
    intros Ha Hb Hc; try contradiction;
    cbn [ToNumber getTime number_max max_lastCheck option_map
         number_is_not_zero new_Date];
    rewrite ?Z.max_id; try reflexivity;
    match goal with
    | |- (if negb (?x =? 0) then _ else _) = _ =>
        replace (x =? 0) with false by (symmetry; apply Z.eqb_neq; lia)
    end;
    cbn [negb]; f_equal; f_equal; lia.
Qed.

(** With check times that are absent or valid dates, it is the latest of the
    three time values, an absent one counting as 0, and none when that is 0. *)
Lemma getLatestCheckTime_exact (d : JpdictIdb) :
  lastCheck (updateState (words d)) <> Some InvalidDate ->
  lastCheck (updateState (kanji d)) <> Some InvalidDate ->
  lastCheck (updateState (names d)) <> Some InvalidDate ->
  getLatestCheckTime d
  = let latest :=
      Z.max (Z.max (time_or_epoch (words d)) (time_or_epoch (kanji d)))
            (time_or_epoch (names d)) in
    if latest =? 0 then None else Some (ValidDate latest).
Proof.
  unfold getLatestCheckTime, time_or_epoch, allMajorDataSeries, Math_max.
  cbn [map db_series fold_left].
  destruct (lastCheck (updateState (words d))) as [[a|]|];
    destruct (lastCheck (updateState (kanji d))) as [[b|]|];
    destruct (lastCheck (updateState (names d))) as [[c|]|];
    intros Ha Hb Hc; try congruence;
    cbn [ToNumber getTime number_max number_is_not_zero new_Date];
    match goal with
    | |- (if negb (?x =? 0) then _ else _) = _ => destruct (x =? 0); reflexivity
    end.
Qed.

(** ** The update cycle *)


(** ** Duplicate requests *)

(** C2.  A request that arrives while a job runs for the same language, where
    the job is forced or the request is not, changes no variable (the job, its
    forced flag and its series stay as they are) and has no effect: nothing is
    cancelled and no step is started.  The same holds for the request as a
    message, and for any number of such messages in a row. *)
Theorem duplicate_request_is_noop :
  forall (w : World) (lang_ : string) (force : bool) (u : CurrentUpdate)
         (dest : option Error) (n : nat),
    currentUpdate w = Some u -> lang u = lang_ ->
    forceUpdate u = true \/ force = false ->
    updateAllSeries lang_ force w = (Ok tt, w, [])
    /\ handle (ev_message (Some (update lang_ force)) dest) w = (Ok tt, w, [])
    /\ run (repeat (ev_message (Some (update lang_ force)) dest) n) w
       = (Ok tt, w, []).
Proof.
  intros w lang_ force u dest n Hu Hl Hf.
  assert (H := updateAllSeries_duplicate lang_ force w u Hu Hl Hf).
  assert (H' : handle (ev_message (Some (update lang_ force)) dest) w
               = (Ok tt, w, [])).
  { simpl. apply try_catch_Ok. exact H. }
  split; [exact H|]. split; [exact H'|].
  induction n as [|n IH]; [reflexivity|].
  cbn [repeat]. rewrite (@run_cons _ _ _ _ _ H'), IH. reflexivity.
Qed.

(** ** Forced cycles *)

(** At the words step without a store, [runNextUpdate] throws once the job is
    cleared; no step is started. *)
Lemma runNextUpdate_last_without_db c w u :
  currentUpdate w = Some u -> series u = Words -> db w = None ->
  runNextUpdate c w
  = (Throw TypeError_undefined,
     set_currentUpdate None (set_lastUpdateError None w),
     [postMessage (leaveBreadcrumb "Successfully updated words database")]).
Proof.
  intros H Hs Hd. destruct w as [d' i cu lue]. simpl in H, Hd. subst cu d'.
  destruct u as [l s f]. simpl in Hs. subst s. reflexivity.
Qed.

(** Where [runNextUpdate] starts a step, the step is the last effect, after
    what [start_step] puts before it. *)
Lemma runNextUpdate_starts c w :
  steps_started (effects_of (runNextUpdate c w)) = []
  \/ exists pre s,
       effects_of (runNextUpdate c w) = pre ++ start_step c s
       /\ steps_started pre = [].
Proof.
  destruct (currentUpdate w) as [u|] eqn:Hu.
  - destruct (series u) eqn:Hs.
    + left. destruct (db w) as [d|] eqn:Hd.
      * rewrite (runNextUpdate_last c w u d Hu Hs Hd).
        cbn [effects_of snd steps_started]. rewrite steps_started_app.
        destruct (doDbStateNotification_log (set_lastUpdateError None w)) as [-> _].
        reflexivity.
      * rewrite (runNextUpdate_last_without_db c w u Hu Hs Hd). reflexivity.
    + right.
      rewrite (@runNextUpdate_advance c w u Names Hu (or_introl (conj Hs eq_refl))).
      eexists (_ :: _), Names. split; [reflexivity|].
      cbn [steps_started].
      apply (doDbStateNotification_log (set_lastUpdateError None w)).
    + right.
      rewrite (@runNextUpdate_advance c w u Words Hu (or_intror (conj Hs eq_refl))).
      eexists (_ :: _), Words. split; [reflexivity|].
      cbn [steps_started].
      apply (doDbStateNotification_log (set_lastUpdateError None w)).
  - right. rewrite (runNextUpdate_fresh c w Hu).
    exists [], Kanji. split; reflexivity.
Qed.

(** C3.  An accepted request that is forced, or that supersedes a forced job,
    starts a job whose forced flag is set, and its first step is started by
    [clearCachedVersionInfo] followed at once by [updateWithRetry] for the
    kanji.  Whenever the completion callback of that request later starts a
    step, in whatever state the worker is by then, it does the same:
    [clearCachedVersionInfo] is the effect just before the [updateWithRetry]. *)
Theorem forced_cycle_clears_cached_version_info :
  forall (w : World) (lang_ : string) (force : bool),
    dbIsInitialized w = true -> accepted w lang_ force = true ->
    force = true \/ inherited_force w = true ->
    let c := mkClosure lang_ force (inherited_force w) in
    let r := updateAllSeries lang_ force w in
    (exists pre,
       effects_of r
       = pre ++ [clearCachedVersionInfo; updateWithRetry Kanji lang_ c]
       /\ steps_started pre = [])
    /\ currentUpdate (world_of r) = Some (mkCurrentUpdate lang_ Kanji true)
    /\ forall w' : World,
         steps_started (effects_of (runNextUpdate c w')) = []
         \/ exists pre s,
              effects_of (runNextUpdate c w')
              = pre ++ [clearCachedVersionInfo; updateWithRetry s lang_ c]
              /\ steps_started pre = [].
Proof.
  intros w lang_ force Hi Ha Hf c r.
  assert (Hforced : force || inherited_force w = true).
  { destruct Hf as [-> | ->]; [reflexivity|apply orb_true_r]. }
  assert (Hstart : forall s,
            start_step c s = [clearCachedVersionInfo; updateWithRetry s lang_ c]).
  { intros s. unfold start_step, c. simpl. rewrite Hforced. reflexivity. }
  subst r. rewrite (updateAllSeries_accepted lang_ force w Hi Ha).
  cbn [effects_of world_of fst snd]. fold c. rewrite Hstart, Hforced.
  split; [|split].
  - eexists. split; [reflexivity|]. destruct (currentUpdate w); reflexivity.
  - reflexivity.
  - intros w'. destruct (runNextUpdate_starts c w') as [H|(pre & s & H & Hp)].
    + left. exact H.
    + right. exists pre, s. rewrite H, Hstart. split; [reflexivity|exact Hp].
Qed.

(** ** Cancellation *)

(** C4.  Without a job [cancelUpdate] does nothing.  With a job it calls
    [cancelUpdateWithRetry] for the job's series and clears the job in the
    same call, so the job slot is empty when it returns; a state query handled
    next publishes no snapshot of the cancelled job: the phase of every
    snapshot it publishes is idle, and where the store is resolved it
    publishes one, with the latest check time of the store. *)
Theorem cancelUpdate_clears_job_at_once :
  forall (w : World) (dest dest' : option Error),
    let cancel_then_query :=
      [ev_message (Some cancelupdate) dest; ev_message (Some querystate) dest'] in
    (currentUpdate w = None -> cancelUpdate w = (Ok tt, w, []))
    /\ (forall u, currentUpdate w = Some u ->
          cancelUpdate w
          = (Ok tt, set_currentUpdate None w, [cancelUpdateWithRetry (series u)]))
    /\ currentUpdate (world_of (cancelUpdate w)) = None
    /\ (forall s, In s (snapshots (effects_of (run cancel_then_query w))) ->
          exists c, state_updateState s = idle c)
    /\ (forall d, dbIsInitialized w = true -> db w = Some d ->
          ~ unresolved w ->
          exists s, snapshots (effects_of (run cancel_then_query w)) = [s]
                    /\ state_updateState s = idle (getLatestCheckTime d)).
Proof.
  intros w dest dest' events.
  assert (Hc : exists es,
             cancelUpdate w = (Ok tt, set_currentUpdate None w, es)
             /\ snapshots es = []).
  { destruct (currentUpdate w) as [u|] eqn:Hu.
    - rewrite (cancelUpdate_running w u Hu). eexists. split; reflexivity.
    - rewrite (cancelUpdate_idle w Hu). exists []. split; [|reflexivity].
      destruct w; simpl in Hu; subst; reflexivity. }
  destruct Hc as (es & Hc & Hes).
  split; [apply cancelUpdate_idle|].
  split; [intros u; apply cancelUpdate_running|].
  split; [rewrite Hc; reflexivity|].
  set (w1 := set_currentUpdate None w) in *.
  assert (Hrun : run events w
                 = (result_of (handle (ev_message (Some querystate) dest') w1),
                    w1,
                    es ++ effects_of (handle (ev_message (Some querystate) dest') w1))).
  { unfold events.
    rewrite (@run_cons (ev_message (Some cancelupdate) dest) _ w w1 es Hc).
    simpl. unfold bind, read.
    destruct (dbIsInitialized w1).
    - rewrite (doDbStateNotification_eta w1). simpl. rewrite app_nil_r. reflexivity.
    - reflexivity. }
  rewrite Hrun. cbn [effects_of snd]. rewrite snapshots_app, Hes. simpl app.
  split.
  - intros s Hin. simpl in Hin. unfold bind, read in Hin.
    destruct (dbIsInitialized w1); [|destruct Hin].
    destruct (unresolved_dec w1) as [Hun|(d & Hd & Hi)].
    + rewrite (doDbStateNotification_unresolved w1 Hun) in Hin. destruct Hin.
    + destruct (doDbStateNotification_resolved w1 d Hd Hi) as (s' & H1 & _ & _ & H4).
      rewrite H1 in Hin. simpl in Hin. destruct Hin as [<-|[]].
      eexists. exact H4.
  - intros d Hinit Hd Hres. simpl. unfold bind, read.
    replace (dbIsInitialized w1) with true by (symmetry; exact Hinit).
    destruct (unresolved_dec w1) as [Hun|(d' & Hd' & Hi)].
    + exfalso. apply Hres. exact Hun.
    + destruct (doDbStateNotification_resolved w1 d' Hd' Hi) as (s' & H1 & _ & _ & H4).
      rewrite H1. exists s'. split; [reflexivity|].
      simpl in Hd'. rewrite Hd in Hd'. injection Hd' as <-. exact H4.
Qed.

(** ** Publication of snapshots *)

Lemma doDbStateNotification_snapshots w s :
  In s (snapshots (effects_of (doDbStateNotification w))) ->
  snapshot_initialized s = true.
Proof.
  destruct (doDbStateNotification_cases w) as [H|(s' & H & Hs)]; rewrite H.
  - intros [].
  - intros [<-|[]]. exact Hs.
Qed.

Lemma accepted_false w lang_ force :
  accepted w lang_ force = false ->
  exists u, currentUpdate w = Some u /\ lang u = lang_
            /\ (forceUpdate u = true \/ force = false).
Proof.
  unfold accepted. destruct (currentUpdate w) as [u|]; [|discriminate].
  intros H. apply negb_false_iff, andb_prop in H. destruct H as [Hl Hf].
  exists u. split; [reflexivity|]. split; [apply String.eqb_eq, Hl|].
  apply orb_prop in Hf. destruct Hf as [Hf|Hf]; [left; exact Hf|].
  right. apply negb_true_iff, Hf.
Qed.

Lemma updateAllSeries_snapshots lang_ force w :
  exists w' es, updateAllSeries lang_ force w = (Ok tt, w', es)
                /\ snapshots es = [].
Proof.
  destruct (dbIsInitialized w) eqn:Hi.
  - destruct (accepted w lang_ force) eqn:Ha.
    + rewrite (updateAllSeries_accepted lang_ force w Hi Ha).
      eexists. eexists. split; [reflexivity|].
      rewrite snapshots_app. unfold start_step. simpl.
      destruct (currentUpdate w), (force || inherited_force w); reflexivity.
    + destruct (accepted_false w lang_ force Ha) as (u & Hu & Hl & Hf).
      rewrite (updateAllSeries_duplicate lang_ force w u Hu Hl Hf).
      exists w, []. split; reflexivity.
  - rewrite (updateAllSeries_uninitialized lang_ force w Hi).
    exists w, []. split; reflexivity.
Qed.

Lemma runNextUpdate_snapshots c w :
  snapshots (effects_of (runNextUpdate c w)) = []
  \/ snapshots (effects_of (runNextUpdate c w))
     = snapshots (effects_of (doDbStateNotification (set_lastUpdateError None w))).
Proof.
  destruct (currentUpdate w) as [u|] eqn:Hu.
  - right. destruct (series u) eqn:Hs.
    + destruct (db w) as [d|] eqn:Hd.
      * rewrite (runNextUpdate_last c w u d Hu Hs Hd).
        cbn [effects_of snd snapshots]. rewrite snapshots_app. simpl.
        apply app_nil_r.
      * rewrite (runNextUpdate_last_without_db c w u Hu Hs Hd).
        rewrite doDbStateNotification_unresolved; [reflexivity|].
        unfold unresolved. simpl. rewrite Hd. exact I.
    + rewrite (runNextUpdate_advance c w u Names Hu (or_introl (conj Hs eq_refl))).
      cbn [effects_of snd snapshots]. rewrite snapshots_app.
      unfold start_step.
      destruct (closure_forceUpdate c || wasForcedUpdate c); apply app_nil_r.
    + rewrite (runNextUpdate_advance c w u Words Hu (or_intror (conj Hs eq_refl))).
      cbn [effects_of snd snapshots]. rewrite snapshots_app.
      unfold start_step.
      destruct (closure_forceUpdate c || wasForcedUpdate c); apply app_nil_r.
  - left. rewrite (runNextUpdate_fresh c w Hu). unfold start_step. simpl.
    destruct (closure_forceUpdate c || wasForcedUpdate c); reflexivity.
Qed.

(** Every snapshot an event publishes comes from [doDbStateNotification]. *)
Lemma handle_snapshots e w :
  snapshots (effects_of (handle e w)) = []
  \/ exists w', snapshots (effects_of (handle e w))
                = snapshots (effects_of (doDbStateNotification w')).
Proof.
  destruct e as [[[|l f| |]|] dest| |c|s now p|d]; simpl.
  - unfold bind, read. destruct (dbIsInitialized w); [|left; reflexivity].
    right. exists w. rewrite (doDbStateNotification_eta w). reflexivity.
  - left. destruct (updateAllSeries_snapshots l f w) as (w' & es & H & Hs).
    rewrite (try_catch_Ok _ _ _ _ _ _ H). exact Hs.
  - left. destruct (currentUpdate w) as [u|] eqn:Hu.
    + rewrite (cancelUpdate_running w u Hu). reflexivity.
    + rewrite (cancelUpdate_idle w Hu). reflexivity.
  - left. unfold bind, read. destruct (db w); [|reflexivity].
    destruct dest; reflexivity.
  - left. reflexivity.
  - right. exists w. reflexivity.
  - destruct (runNextUpdate_snapshots c w) as [H|H]; [left; exact H|].
    right. eexists. exact H.
  - right. destruct (onUpdateError_eq s now p w) as (pre & H & H1 & _).
    rewrite H. eexists. cbn [effects_of snd]. rewrite snapshots_app, H1.
    reflexivity.
  - left. reflexivity.
Qed.

Lemma run_snapshots events w s :
  In s (snapshots (effects_of (run events w))) -> snapshot_initialized s = true.
Proof.
  revert w. induction events as [|e rest IH]; intros w; [intros []|].
  simpl. unfold bind.
  assert (He : forall s, In s (snapshots (effects_of (handle e w))) ->
                         snapshot_initialized s = true).
  { intros s0. destruct (handle_snapshots e w) as [H|(w' & H)]; rewrite H.
    - intros [].
    - apply doDbStateNotification_snapshots. }
  destruct (handle e w) as [[[[]|?|] w1] o1].
  - specialize (IH w1). destruct (run rest w1) as [[r2 w2] o2].
    cbn [effects_of snd] in *. rewrite snapshots_app. intros Hin.
    apply in_app_or in Hin. destruct Hin as [Hin|Hin]; [apply He|apply IH]; exact Hin.
  - apply He.
  - apply He.
Qed.

(** C5.  Where the store is absent, or one of the four datasets (words,
    kanji, radicals, names) has the load state 'init', a call of
    [doDbStateNotification] posts nothing and changes nothing.  And whatever
    events the worker handles, from whatever state, every snapshot it publishes
    has no dataset in the state 'init'. *)
Theorem snapshot_withheld_while_uninitialized :
  (forall w : World, unresolved w -> doDbStateNotification w = (Ok tt, w, []))
  /\ (forall (events : list WorkerEvent) (w : World) (s : JpdictState),
        In s (snapshots (effects_of (run events w))) ->
        snapshot_state (state_words s) <> state_init
        /\ snapshot_state (state_kanji s) <> state_init
        /\ snapshot_state (state_radicals s) <> state_init
        /\ snapshot_state (state_names s) <> state_init).
Proof.
  split; [exact doDbStateNotification_unresolved|].
  intros events w s Hin. apply run_snapshots in Hin.
  unfold snapshot_initialized in Hin.
  repeat (apply andb_prop in Hin; destruct Hin as [Hin ?]).
  repeat split; intros E; rewrite E in *; discriminate.
Qed.

(** ** The error callback *)

Lemma breadcrumbs_app a b : breadcrumbs (a ++ b) = breadcrumbs a ++ breadcrumbs b.
Proof.
  induction a as [|e a IH]; simpl; [reflexivity|].
  destruct e as [[]| | | | | | | |]; simpl; rewrite ?IH; reflexivity.
Qed.

Lemma doDbStateNotification_notices w :
  breadcrumbs (effects_of (doDbStateNotification w)) = []
  /\ errors_notified (effects_of (doDbStateNotification w)) = [].
Proof.
  destruct (doDbStateNotification_cases w) as [H|(s & H & _)]; rewrite H;
    split; reflexivity.
Qed.

(** The notices of the error callback are those it posts before it records
    the error. *)
Lemma onUpdateError_notices series now params w :
  exists pre,
    onUpdateError series now params w
    = (Ok tt, set_lastUpdateError (Some (toUpdateErrorState params)) w,
       pre ++ effects_of (doDbStateNotification
                            (set_lastUpdateError (Some (toUpdateErrorState params)) w)))
    /\ snapshots pre = []
    /\ breadcrumbs (effects_of (onUpdateError series now params w)) = breadcrumbs pre
    /\ errors_notified (effects_of (onUpdateError series now params w))
       = errors_notified pre
    /\ match nextRetry params with
       | Some _ =>
           List.length (breadcrumbs pre) = 1%nat
           /\ errors_notified pre =
                if strict_equal (retryCount params) 5
                then [(error params, Some warning)]
                else []
       | None =>
           if (name (error params) =? "AbortError")%string
              || (name (error params) =? "OfflineError")%string
           then List.length (breadcrumbs pre) = 1%nat /\ errors_notified pre = []
           else breadcrumbs pre = [] /\ errors_notified pre = [(error params, None)]
       end.
Proof.
  destruct (onUpdateError_eq series now params w) as (pre & H & H1 & _ & _ & H4).
  exists pre. rewrite H. cbn [effects_of snd].
  rewrite breadcrumbs_app, errors_notified_app.
  destruct (doDbStateNotification_notices
              (set_lastUpdateError (Some (toUpdateErrorState params)) w)) as [-> ->].
  rewrite !app_nil_r. repeat split; assumption.
Qed.

Lemma strict_equal_5 r : strict_equal r 5 = true <-> r = Some 5.
Proof.
  destruct r as [z|]; simpl; [|split; discriminate].
  rewrite Z.eqb_eq. split; [intros ->; reflexivity|congruence].
Qed.

(** The warnings of a retry sequence whose counts start at [first]: one if
    the count 5 is among them. *)
Lemma retry_sequence_warnings series retries :
  forall first w,
    warnings (effects_of (run (retry_sequence series first retries) w))
    = if (first <=? 5) && (5 <? first + Z.of_nat (List.length retries))
      then 1%nat else 0%nat.
Proof.
  induction retries as [|[[e t] now] rest IH]; intros first w.
  - simpl. replace (5 <? first + 0) with (5 <? first) by (f_equal; lia).
    destruct (first <=? 5) eqn:E1, (5 <? first) eqn:E2; try reflexivity.
    apply Z.leb_le in E1. apply Z.ltb_lt in E2. lia.
  - cbn [retry_sequence].
    destruct (onUpdateError_notices series now
                (mkUpdateErrorParams e (Some t) (Some first)) w)
      as (pre & H & _ & _ & He & _ & Hw).
    rewrite H in He. cbn [effects_of snd] in He.
    rewrite (run_cons
               (ev_updateError series now
                  (mkUpdateErrorParams e (Some t) (Some first))) _ _ _ _ H).
    cbn [effects_of snd].
    unfold warnings in *. rewrite errors_notified_app, He, Hw.
    rewrite filter_app, length_app, IH.
    cbn [retryCount strict_equal error List.length].
    replace (first + Z.of_nat (S (List.length rest)))
      with (first + 1 + Z.of_nat (List.length rest)) by lia.
    destruct (first =? 5) eqn:E; [apply Z.eqb_eq in E|apply Z.eqb_neq in E].
    + subst first. simpl filter. simpl List.length.
      replace (5 + 1 <=? 5) with false by (symmetry; apply Z.leb_gt; lia).
      replace (5 <? 5 + 1 + Z.of_nat (List.length rest)) with true
        by (symmetry; apply Z.ltb_lt; lia).
      reflexivity.
    + simpl filter. simpl List.length.
      destruct (first + 1 <=? 5) eqn:E1, (first <=? 5) eqn:E2,
               (5 <? first + 1 + Z.of_nat (List.length rest)) eqn:E3;
        simpl; try reflexivity;
        rewrite ?Z.leb_le, ?Z.leb_gt, ?Z.ltb_lt, ?Z.ltb_ge in *; lia.
Qed.

(** C6.  An error reported with a next retry time makes the callback leave
    one breadcrumb, and post an error notification, of warning severity, if
    and only if the retry count is 5; with any other count (4 and 6 among
    them) no error notification is posted.  So a retry sequence whose counts
    go 1, 2, 3, ... gets one warning once it reaches the count 5, and none
    before. *)
Theorem retry_warning_at_fifth_retry_only :
  forall (series : DataSeries) (now : Z) (params : UpdateErrorParams)
         (w : World) (t : Date),
    nextRetry params = Some t ->
    let es := effects_of (onUpdateError series now params w) in
    List.length (breadcrumbs es) = 1%nat
    /\ (In (error params, Some warning) (errors_notified es)
        <-> retryCount params = Some 5)
    /\ (retryCount params = Some 5 ->
        errors_notified es = [(error params, Some warning)])
    /\ (retryCount params <> Some 5 -> errors_notified es = [])
    /\ forall retries : list (Error * Date * Z),
         warnings (effects_of (run (retry_sequence series 1 retries) w))
         = if 5 <=? Z.of_nat (List.length retries) then 1%nat else 0%nat.
Proof.
  intros series now params w t Ht es. subst es.
  destruct (onUpdateError_notices series now params w)
    as (pre & _ & _ & Hb & He & Hcase).
  rewrite Ht in Hcase. destruct Hcase as [Hlen Herr].
  rewrite Hb, He, Herr.
  split; [exact Hlen|].
  assert (Hseq : forall retries : list (Error * Date * Z),
            warnings (effects_of (run (retry_sequence series 1 retries) w))
            = if 5 <=? Z.of_nat (List.length retries) then 1%nat else 0%nat).
  { intros retries. rewrite retry_sequence_warnings.
    replace (1 <=? 5) with true by reflexivity. cbn [andb].
    destruct (5 <=? Z.of_nat (List.length retries)) eqn:E1;
      [apply Z.leb_le in E1|apply Z.leb_gt in E1].
    - replace (5 <? 1 + Z.of_nat (List.length retries)) with true
        by (symmetry; apply Z.ltb_lt; lia).
      reflexivity.
    - replace (5 <? 1 + Z.of_nat (List.length retries)) with false
        by (symmetry; apply Z.ltb_ge; lia).
      reflexivity. }
  destruct (strict_equal (retryCount params) 5) eqn:E.
  - apply strict_equal_5 in E.
    split; [split; [intros _; exact E|intros _; left; reflexivity]|].
    split; [reflexivity|]. split; [congruence|exact Hseq].
  - assert (Hne : retryCount params <> Some 5).
    { intros H. apply strict_equal_5 in H. congruence. }
    split; [split; [intros []|intros H; destruct (Hne H)]|].
    split; [intros H; destruct (Hne H)|]. split; [reflexivity|exact Hseq].
Qed.

(** C7.  An error reported without a next retry time is classified by its
    name: for 'AbortError' and 'OfflineError' the callback leaves one
    breadcrumb and posts no error notification; for every other name it posts
    one error notification without severity and leaves no breadcrumb.  In all
    cases, with or without a next retry time, the callback records the error
    in [lastUpdateError] and then runs [doDbStateNotification] on the state
    with the error recorded; nothing it does before publishes a snapshot. *)
Theorem terminal_error_classified_by_name :
  forall (series : DataSeries) (now : Z) (params : UpdateErrorParams) (w : World),
    let w' := set_lastUpdateError (Some (toUpdateErrorState params)) w in
    let r := onUpdateError series now params w in
    (result_of r = Ok tt /\ world_of r = w'
     /\ lastUpdateError (world_of r) = Some (toUpdateErrorState params))
    /\ (exists pre,
          effects_of r = pre ++ effects_of (doDbStateNotification w')
          /\ snapshots pre = [])
    /\ (nextRetry params = None ->
        (name (error params) = "AbortError" \/ name (error params) = "OfflineError" ->
         List.length (breadcrumbs (effects_of r)) = 1%nat
         /\ errors_notified (effects_of r) = [])
        /\ (name (error params) <> "AbortError" ->
            name (error params) <> "OfflineError" ->
            breadcrumbs (effects_of r) = []
            /\ errors_notified (effects_of r) = [(error params, None)])).
Proof.
  intros series now params w w' r. subst r.
  destruct (onUpdateError_notices series now params w)
    as (pre & H & Hs & Hb & He & Hcase).
  fold w' in H. rewrite Hb, He. rewrite H. cbn [result_of world_of effects_of fst snd].
  split; [repeat split|]. split; [exists pre; split; [reflexivity|exact Hs]|].
  intros Hn. rewrite Hn in Hcase. split.
  - intros Hname.
    replace ((name (error params) =? "AbortError")%string
             || (name (error params) =? "OfflineError")%string) with true in Hcase.
    + exact Hcase.
    + symmetry. destruct Hname as [-> | ->]; reflexivity.
  - intros Ha Ho.
    apply String.eqb_neq in Ha. apply String.eqb_neq in Ho.
    rewrite Ha, Ho in Hcase. exact Hcase.
Qed.

(** ** The phase of a snapshot *)

(** C8, as the code has it.  A snapshot published while no job is live has
    the phase idle with the check time [getLatestCheckTime] gives: with check
    times that are absent or valid dates after the epoch, the latest check
    time of the words, kanji and names datasets, and none when none of the
    three has a check time.  With a job live, the phase is the update state
    the store reports for the series of the job.  [getLatestCheckTime] does
    not look at the radicals.  (With check times that are absent or valid
    dates of any time, it is the latest of the three time values, an absent
    one counting as 0, and none when that is 0.) *)
Theorem published_phase :
  forall (w : World) (d : JpdictIdb),
    db w = Some d -> ~ unresolved w ->
    (exists s,
       doDbStateNotification w = (Ok tt, w, [postMessage (notifyDbStateUpdated s)])
       /\ (currentUpdate w = None ->
           state_updateState s = idle (getLatestCheckTime d))
       /\ (forall u, currentUpdate w = Some u ->
           state_updateState s = updateState (db_series d (series u)))
       /\ (currentUpdate w = None ->
           check_time_wf (words d) -> check_time_wf (kanji d) ->
           check_time_wf (names d) ->
           state_updateState s
           = idle (option_map ValidDate
                     (max_lastCheck
                        [check_time (words d); check_time (kanji d);
                         check_time (names d)])))
       /\ (currentUpdate w = None ->
           lastCheck (updateState (words d)) = None ->
           lastCheck (updateState (kanji d)) = None ->
           lastCheck (updateState (names d)) = None ->
           state_updateState s = idle None))
    /\ (forall r : DataSeriesInfo,
          getLatestCheckTime (mkJpdictIdb (words d) (kanji d) r (names d))
          = getLatestCheckTime d)
    /\ (check_time_wf (words d) -> check_time_wf (kanji d) ->
        check_time_wf (names d) ->
        getLatestCheckTime d
        = option_map ValidDate
            (max_lastCheck
               [check_time (words d); check_time (kanji d); check_time (names d)]))
    /\ (lastCheck (updateState (words d)) <> Some InvalidDate ->
        lastCheck (updateState (kanji d)) <> Some InvalidDate ->
        lastCheck (updateState (names d)) <> Some InvalidDate ->
        getLatestCheckTime d
        = let latest :=
            Z.max (Z.max (time_or_epoch (words d)) (time_or_epoch (kanji d)))
                  (time_or_epoch (names d)) in
          if latest =? 0 then None else Some (ValidDate latest)).
Proof.
  intros w d Hd Hres. split; [|split; [|split]].
  - destruct (unresolved_dec w) as [Hun|(d' & Hd' & Hi)]; [destruct (Hres Hun)|].
    rewrite Hd in Hd'. injection Hd' as <-.
    destruct (doDbStateNotification_resolved w d Hd Hi) as (s & H1 & _ & _ & H4).
    exists s. split; [exact H1|].
    assert (Hidle : currentUpdate w = None ->
                    state_updateState s = idle (getLatestCheckTime d)).
    { intros Hu. rewrite Hu in H4. exact H4. }
    split; [exact Hidle|]. split; [|split].
    + intros u Hu. rewrite Hu in H4. exact H4.
    + intros Hu Hw Hk Hn. rewrite (Hidle Hu).
      rewrite (getLatestCheckTime_major d Hw Hk Hn). reflexivity.
    + intros Hu Hw Hk Hn. rewrite (Hidle Hu).
      rewrite (getLatestCheckTime_major d).
      * unfold check_time. rewrite Hw, Hk, Hn. reflexivity.
      * unfold check_time_wf. rewrite Hw. exact I.
      * unfold check_time_wf. rewrite Hk. exact I.
      * unfold check_time_wf. rewrite Hn. exact I.
  - intros r. reflexivity.
  - apply getLatestCheckTime_major.
  - apply getLatestCheckTime_exact.
Qed.

(** ** Opening the store *)

Lemma instances_created_app a b :
  instances_created (a ++ b) = (instances_created a + instances_created b)%nat.
Proof.
  induction a as [|e a IH]; simpl; [reflexivity|].
  destruct e; simpl; rewrite ?IH; reflexivity.
Qed.

Lemma open_effects_instances store rc previous :
  instances_created (open_effects store rc previous) = 1%nat.
Proof.
  unfold open_effects.
  destruct previous; [destruct (destroy_outcome store rc)|]; reflexivity.
Qed.

(** One round of the loop. *)
Lemma initDb_loop_round store fuel rc w :
  let w1 := set_db (Some (instance store rc)) w in
  let pre := open_effects store rc (db w) in
  initDb_loop store (S fuel) rc w
  = match ready store rc with
    | None => (Ok (instance store rc), w1, pre)
    | Some e =>
        if 3 <=? rc then (Throw e, w1, pre ++ [giving_up])
        else
          let r := initDb_loop store fuel (rc + 1) w1 in
          (result_of r, world_of r,
           pre ++ backoff_effects (rc + 1) ++ effects_of r)
    end.
Proof.
  intros w1 pre. subst w1 pre. cbn [initDb_loop].
  destruct w as [d i cu lue].
  unfold open_effects, backoff_effects, giving_up, set_db.
  cbn [db dbIsInitialized currentUpdate lastUpdateError].
  destruct d as [d|]; [destruct (destroy_outcome store rc) as [e0|]|];
    (destruct (ready store rc) as [e1|]; [destruct (3 <=? rc)|]);
    cbv [bind read write effect try_catch await_destroy ret throw set_db
         db dbIsInitialized currentUpdate lastUpdateError];
    try reflexivity;
    destruct (initDb_loop store fuel (rc + 1) _) as [[[a|e'|] w2] o2];
    reflexivity.
Qed.

(** The loop creates at most [4 - retryCount] instances (one, from the count
    3 on), and settles when it has that many rounds of fuel. *)
Lemma initDb_loop_bound store fuel :
  forall rc w,
    (instances_created (effects_of (initDb_loop store fuel rc w))
     <= Z.to_nat (Z.max 1 (4 - rc)))%nat
    /\ ((Z.to_nat (Z.max 1 (4 - rc)) <= fuel)%nat ->
        result_of (initDb_loop store fuel rc w) <> OutOfFuel).
Proof.
  induction fuel as [|fuel IH]; intros rc w.
  - simpl. split; [lia|]. intros H. lia.
  - rewrite initDb_loop_round.
    destruct (ready store rc) as [e|].
    + destruct (3 <=? rc) eqn:E.
      * cbn [effects_of result_of fst snd].
        rewrite instances_created_app, open_effects_instances. simpl.
        split; [lia|discriminate].
      * apply Z.leb_gt in E.
        destruct (IH (rc + 1) (set_db (Some (instance store rc)) w)) as [Hn Hr].
        cbv zeta. cbn [effects_of result_of fst snd].
        rewrite !instances_created_app, open_effects_instances.
        cbn [backoff_effects instances_created Nat.add].
        split; [lia|]. intros Hf. apply Hr. lia.
    + cbn [effects_of result_of fst snd]. rewrite open_effects_instances.
      split; [lia|discriminate].
Qed.

(** While [dbIsInitialized] is false, update requests and state queries
    change nothing and have no effect. *)
Lemma run_uninitialized events w :
  dbIsInitialized w = false -> forallb update_or_query events = true ->
  run events w = (Ok tt, w, []).
Proof.
  intros Hi. induction events as [|e rest IH]; intros Hq; [reflexivity|].
  simpl in Hq. apply andb_prop in Hq. destruct Hq as [He Hr].
  assert (H : handle e w = (Ok tt, w, [])).
  { destruct e as [[[|l f| |]|] dest| | | |]; try discriminate; simpl.
    - unfold bind, read. rewrite Hi. reflexivity.
    - apply try_catch_Ok. apply updateAllSeries_uninitialized. exact Hi. }
  rewrite (run_cons e rest w w [] H), (IH Hr). reflexivity.
Qed.

(** The log of [initDb] when the first four rounds fail. *)
Lemma initDb_four_failures store fuel e0 e1 e2 e3 :
  ready store 0 = Some e0 -> ready store 1 = Some e1 ->
  ready store 2 = Some e2 -> ready store 3 = Some e3 ->
  initDb store (4 + fuel) initial_World
  = (Throw e3,
     set_db (Some (instance store 3)) initial_World,
     open_effects store 0 None
     ++ backoff_effects 1 ++ open_effects store 1 (Some (instance store 0))
     ++ backoff_effects 2 ++ open_effects store 2 (Some (instance store 1))
     ++ backoff_effects 3 ++ open_effects store 3 (Some (instance store 2))
     ++ [giving_up]).
Proof.
  intros H0 H1 H2 H3. unfold initDb. cbn [Nat.add].
  rewrite initDb_loop_round, H0. cbn [Z.leb Z.compare Pos.compare Pos.compare_cont Z.add].
  rewrite initDb_loop_round, H1. cbn [Z.leb Z.compare Pos.compare Pos.compare_cont Z.add Pos.add Pos.succ].
  rewrite initDb_loop_round, H2. cbn [Z.leb Z.compare Pos.compare Pos.compare_cont Z.add Pos.add Pos.succ].
  rewrite initDb_loop_round, H3. cbn [Z.leb Z.compare Pos.compare Pos.compare_cont Z.add Pos.add Pos.succ].
  cbn [result_of world_of effects_of fst snd set_db db initial_World
       dbIsInitialized currentUpdate lastUpdateError].
  reflexivity.
Qed.

(** C9, as the code has it.  [initDb] settles within four rounds and creates
    at most four store instances.  When the first four rounds fail, there are
    exactly four, each after the first preceded by the wait for an idle period
    of at most 1000 ms and the destruction of the instance before it;
    [dbIsInitialized] resolves to false, and from then on update requests and
    state queries change nothing, start no job and post nothing.  [db] keeps
    the last instance: a change notification of that instance still publishes
    a snapshot once none of its four datasets is in the state 'init'. *)
Theorem store_opening_bounded :
  forall (store : StoreOpening) (fuel : nat),
    (4 <= fuel)%nat ->
    (forall w : World,
       result_of (initDb store fuel w) <> OutOfFuel
       /\ (instances_created (effects_of (initDb store fuel w)) <= 4)%nat)
    /\ ((forall k, 0 <= k <= 3 -> ready store k <> None) ->
        let r := init_dbIsInitialized store fuel initial_World in
        result_of r = Ok tt
        /\ effects_of r
           = open_effects store 0 None
             ++ backoff_effects 1 ++ open_effects store 1 (Some (instance store 0))
             ++ backoff_effects 2 ++ open_effects store 2 (Some (instance store 1))
             ++ backoff_effects 3 ++ open_effects store 3 (Some (instance store 2))
             ++ [giving_up]
        /\ instances_created (effects_of r) = 4%nat
        /\ dbIsInitialized (world_of r) = false
        /\ db (world_of r) = Some (instance store 3)
        /\ (forall events : list WorkerEvent,
              forallb update_or_query events = true ->
              run events (world_of r) = (Ok tt, world_of r, []))
        /\ (~ unresolved (world_of r) ->
            exists s,
              run [ev_changed] (world_of r)
              = (Ok tt, world_of r, [postMessage (notifyDbStateUpdated s)]))).
Proof.
  intros store fuel Hfuel. split.
  - intros w. unfold initDb.
    destruct (initDb_loop_bound store fuel 0 w) as [Hn Hr].
    split; [apply Hr; simpl; lia|]. simpl in Hn. lia.
  - intros Hfail r.
    destruct (ready store 0) as [e0|] eqn:H0; [|destruct (Hfail 0); [lia|exact H0]].
    destruct (ready store 1) as [e1|] eqn:H1; [|destruct (Hfail 1); [lia|exact H1]].
    destruct (ready store 2) as [e2|] eqn:H2; [|destruct (Hfail 2); [lia|exact H2]].
    destruct (ready store 3) as [e3|] eqn:H3; [|destruct (Hfail 3); [lia|exact H3]].
    assert (Hr : r = (Ok tt,
                      set_dbIsInitialized false
                        (set_db (Some (instance store 3)) initial_World),
                      effects_of (initDb store fuel initial_World))).
    { subst r. unfold init_dbIsInitialized.
      replace fuel with (4 + (fuel - 4))%nat by lia.
      unfold bind at 1. unfold try_catch. unfold bind at 1.
      rewrite (initDb_four_failures store (fuel - 4) e0 e1 e2 e3 H0 H1 H2 H3).
      cbv [ret write effects_of snd]. rewrite !app_nil_r. reflexivity. }
    replace fuel with (4 + (fuel - 4))%nat in Hr by lia.
    rewrite (initDb_four_failures store (fuel - 4) e0 e1 e2 e3 H0 H1 H2 H3) in Hr.
    cbn [effects_of snd] in Hr. rewrite Hr.
    cbn [result_of world_of effects_of fst snd].
    split; [reflexivity|]. split; [reflexivity|].
    split.
    { rewrite !instances_created_app, !open_effects_instances. reflexivity. }
    split; [reflexivity|]. split; [reflexivity|].
    split; [intros events Hq; apply run_uninitialized; [reflexivity|exact Hq]|].
    intros Hres.
    set (wf := set_dbIsInitialized false
                 (set_db (Some (instance store 3)) initial_World)) in *.
    destruct (unresolved_dec wf) as [Hun|(d & Hd & Hi)]; [destruct (Hres Hun)|].
    destruct (doDbStateNotification_resolved wf d Hd Hi) as (s & Hs & _).
    exists s. rewrite (run_cons ev_changed [] wf wf _ Hs). reflexivity.
Qed.

(** ** The badge of the toolbar button *)

Lemma badge_texts_app a b : badge_texts (a ++ b) = badge_texts a ++ badge_texts b.
Proof.
  induction a as [|c a IH]; simpl; [reflexivity|].
  destruct c; simpl; rewrite ?IH; reflexivity.
Qed.

Lemma is_ok_false s : is_ok s = false <-> s <> state_ok.
Proof. destruct s; simpl; split; congruence. Qed.

Lemma hasNotOkDatabase_spec (s : JpdictState) :
  hasNotOkDatabase s = true
  <-> snapshot_state (state_words s) <> state_ok
      \/ snapshot_state (state_kanji s) <> state_ok
      \/ snapshot_state (state_names s) <> state_ok.
Proof.
  unfold hasNotOkDatabase, allMajorDataSeries. cbn [existsb jpdictState_series].
  rewrite orb_false_r, !orb_true_iff, !negb_true_iff, !is_ok_false. tauto.
Qed.

Lemma showsUpdateError_spec (s : JpdictState) :
  showsUpdateError s = true
  <-> (snapshot_state (state_words s) <> state_ok
       \/ snapshot_state (state_kanji s) <> state_ok
       \/ snapshot_state (state_names s) <> state_ok)
      /\ exists e, state_updateError s = Some e
                   /\ updateError_name e <> "AbortError"
                   /\ updateError_name e <> "QuotaExceededError".
Proof.
  unfold showsUpdateError. rewrite andb_true_iff, hasNotOkDatabase_spec.
  destruct (state_updateError s) as [e|].
  - rewrite andb_true_iff, !negb_true_iff, !String.eqb_neq. split.
    + intros [H [Ha Hq]]. split; [exact H|]. exists e. auto.
    + intros [H (e' & He & Ha & Hq)]. injection He as <-. auto.
  - split; [intros [_ H]; discriminate|intros [_ (e & H & _)]; discriminate].
Qed.

(** The badge text is set once, from the condition of the warning overlay. *)
Lemma updateBrowserAction_badge enabled st tabId toolbarIcon :
  badge_texts (updateBrowserAction enabled st tabId toolbarIcon)
  = [if showsUpdateError (jpdictState st) then "!" else ""].
Proof.
  unfold updateBrowserAction.
  do 2 match goal with
       | |- context [let '(_, _) := ?X in _] =>
           let p := fresh "parts" in
           let t := fresh "tooltip" in
           destruct X as [p t]
       end.
  unfold setIcon, composeAction.
  destruct (showsUpdateError (jpdictState st)), SUPPORTS_SVG_ICONS,
    has_composeAction; reflexivity.
Qed.

(** C10.  The presenter sets the badge text once.  It is '!' exactly when one
    of the major datasets (words, kanji, names) is not 'ok' and an update
    error is recorded whose name is neither 'AbortError' nor
    'QuotaExceededError'; when the three major datasets are 'ok' the badge
    text is cleared, whatever update error the snapshot carries. *)
Theorem error_badge_requires_not_ok_database :
  forall (enabled : bool) (st : JpdictStateWithFallback) (tabId : option Z)
         (toolbarIcon : ToolbarIcon),
    let s := jpdictState st in
    let badge := badge_texts (updateBrowserAction enabled st tabId toolbarIcon) in
    (badge = ["!"] \/ badge = [""])
    /\ (badge = ["!"]
        <-> (snapshot_state (state_words s) <> state_ok
             \/ snapshot_state (state_kanji s) <> state_ok
             \/ snapshot_state (state_names s) <> state_ok)
            /\ exists e, state_updateError s = Some e
                         /\ updateError_name e <> "AbortError"
                         /\ updateError_name e <> "QuotaExceededError")
    /\ (snapshot_state (state_words s) = state_ok ->
        snapshot_state (state_kanji s) = state_ok ->
        snapshot_state (state_names s) = state_ok ->
        badge = [""]).
Proof.
  intros enabled st tabId toolbarIcon s badge. subst badge.
  rewrite updateBrowserAction_badge. fold s.
  rewrite <- showsUpdateError_spec.
  destruct (showsUpdateError s) eqn:E.
  - split; [left; reflexivity|]. split; [tauto|].
    intros Hw Hk Hn. apply showsUpdateError_spec in E.
    destruct E as [[H|[H|H]] _]; contradiction.
  - split; [right; reflexivity|]. split; [|reflexivity].
    split; [discriminate|discriminate].
Qed.

(** * More properties of the worker *)

(** ** Opening the store, continued *)

Lemma destroys_app a b : destroys (a ++ b) = (destroys a + destroys b)%nat.
Proof.
  induction a as [|e a IH]; simpl; [reflexivity|].
  destruct e; simpl; rewrite ?IH; reflexivity.
Qed.

Lemma open_effects_destroys store rc previous :
  destroys (open_effects store rc previous)
  = match previous with Some _ => 1%nat | None => 0%nat end.
Proof.
  unfold open_effects.
  destruct previous; [destruct (destroy_outcome store rc)|]; reflexivity.
Qed.

Lemma set_db_set_db a b w : set_db a (set_db b w) = set_db a w.
Proof. destruct w. reflexivity. Qed.

(** The loop when [n] rounds fail and the next one opens. *)
Lemma initDb_loop_succeeds store :
  forall (n : nat) (rc : Z) (w : World) (fuel : nat),
    (forall j, rc <= j < rc + Z.of_nat n -> ready store j <> None) ->
    rc + Z.of_nat n <= 3 ->
    ready store (rc + Z.of_nat n) = None ->
    (n < fuel)%nat ->
    exists es,
      initDb_loop store fuel rc w
      = (Ok (instance store (rc + Z.of_nat n)),
         set_db (Some (instance store (rc + Z.of_nat n))) w, es)
      /\ instances_created es = S n
      /\ destroys es
         = (n + match db w with Some _ => 1 | None => 0 end)%nat.
Proof.
  induction n as [|n IH]; intros rc w fuel Hfail Hle Hok Hfuel;
    (destruct fuel as [|fuel]; [lia|]); rewrite initDb_loop_round.
  - replace (rc + Z.of_nat 0) with rc in * by lia. rewrite Hok.
    eexists. split; [reflexivity|].
    rewrite open_effects_instances, open_effects_destroys. split; reflexivity.
  - destruct (ready store rc) as [e|] eqn:E; [|destruct (Hfail rc); [lia|exact E]].
    replace (3 <=? rc) with false by (symmetry; apply Z.leb_gt; lia).
    destruct (IH (rc + 1) (set_db (Some (instance store rc)) w) fuel)
      as (es & H & Hi & Hd).
    + intros j Hj. apply Hfail. lia.
    + lia.
    + replace (rc + 1 + Z.of_nat n) with (rc + Z.of_nat (S n)) by lia. exact Hok.
    + lia.
    + replace (rc + 1 + Z.of_nat n) with (rc + Z.of_nat (S n)) in H by lia.
      cbv zeta. rewrite H. cbn [result_of world_of effects_of fst snd].
      rewrite set_db_set_db. eexists. split; [reflexivity|].
      rewrite !instances_created_app, !destroys_app,
        open_effects_instances, open_effects_destroys, Hi, Hd.
      cbn [backoff_effects instances_created destroys db set_db].
      split; lia.
Qed.

Lemma init_dbIsInitialized_Ok store fuel w a w1 o1 :
  initDb store fuel w = (Ok a, w1, o1) ->
  init_dbIsInitialized store fuel w = (Ok tt, set_dbIsInitialized true w1, o1).
Proof.
  intros H. unfold init_dbIsInitialized, try_catch, bind. rewrite H.
  cbv [ret write]. rewrite !app_nil_r. reflexivity.
Qed.

(** X1.  When the store fails to open [k] times, [k] at most 3, and opens at
    the next attempt, [initDb] returns that instance: [dbIsInitialized]
    resolves to true, [db] holds the instance that opened, [k + 1] instances
    were created and the [k] that failed were destroyed. *)
Theorem initDb_opens_after_failures :
  forall (store : StoreOpening) (k : Z) (fuel : nat),
    0 <= k <= 3 ->
    (forall j, 0 <= j < k -> ready store j <> None) ->
    ready store k = None ->
    (Z.to_nat k < fuel)%nat ->
    let r := init_dbIsInitialized store fuel initial_World in
    result_of r = Ok tt
    /\ dbIsInitialized (world_of r) = true
    /\ db (world_of r) = Some (instance store k)
    /\ instances_created (effects_of r) = S (Z.to_nat k)
    /\ destroys (effects_of r) = Z.to_nat k.
Proof.
  intros store k fuel Hk Hfail Hok Hfuel r.
  destruct (initDb_loop_succeeds store (Z.to_nat k) 0 initial_World fuel)
    as (es & H & Hi & Hd).
  - intros j Hj. apply Hfail. lia.
  - lia.
  - replace (0 + Z.of_nat (Z.to_nat k)) with k by lia. exact Hok.
  - exact Hfuel.
  - replace (0 + Z.of_nat (Z.to_nat k)) with k in H by lia.
    subst r. rewrite (init_dbIsInitialized_Ok store fuel initial_World _ _ _ H).
    cbn [result_of world_of effects_of fst snd].
    rewrite Hi, Hd. cbn [initial_World db]. repeat split. lia.
Qed.

Lemma without_logs_app a b : without_logs (a ++ b) = without_logs a ++ without_logs b.
Proof. apply filter_app. Qed.

Lemma open_effects_without_logs store store' rc previous :
  without_logs (open_effects store rc previous)
  = without_logs (open_effects store' rc previous).
Proof.
  unfold open_effects.
  destruct previous;
    [destruct (destroy_outcome store rc), (destroy_outcome store' rc)|];
    reflexivity.
Qed.

(** X2.  A [destroy] that fails is logged and changes nothing else: two
    stores that differ only in how their [destroy] calls end give [initDb]
    the same result and leave the same state, and apart from the console log
    the effects are the same. *)
Theorem initDb_ignores_destroy_failures :
  forall (store store' : StoreOpening),
    (forall k, instance store k = instance store' k) ->
    (forall k, ready store k = ready store' k) ->
    forall (fuel : nat) (w : World),
      result_of (initDb store fuel w) = result_of (initDb store' fuel w)
      /\ world_of (initDb store fuel w) = world_of (initDb store' fuel w)
      /\ without_logs (effects_of (initDb store fuel w))
         = without_logs (effects_of (initDb store' fuel w)).
Proof.
  intros store store' Hinst Hready fuel w. unfold initDb. generalize 0 as rc.
  revert w. induction fuel as [|fuel IH]; intros w rc.
  - repeat split.
  - rewrite !initDb_loop_round, <- Hready, <- Hinst.
    destruct (ready store rc) as [e|].
    + destruct (3 <=? rc).
      * cbn [result_of world_of effects_of fst snd].
        rewrite !without_logs_app.
        rewrite (open_effects_without_logs store store'). repeat split.
      * destruct (IH (set_db (Some (instance store rc)) w) (rc + 1))
          as (Hr & Hw & He).
        cbv zeta. cbn [result_of world_of effects_of fst snd].
        rewrite !without_logs_app, He.
        rewrite (open_effects_without_logs store store'). repeat split; assumption.
    + cbn [result_of world_of effects_of fst snd].
      rewrite (open_effects_without_logs store store'). repeat split.
Qed.

(** ** Requests *)

Lemma set_currentUpdate_twice a b w :
  set_currentUpdate a (set_currentUpdate b w) = set_currentUpdate a w.
Proof. destruct w. reflexivity. Qed.

(** X3.  A request that arrives while a job runs for another language, or
    while a job that is not forced runs and the request is forced, first
    cancels the step of the running job, for the series that job is at, and
    then starts the kanji step of a new job for the requested language.  The
    new job is forced when the request or the cancelled job is. *)
Theorem superseding_request_cancels_running_step :
  forall (w : World) (lang_ : string) (force : bool) (u : CurrentUpdate)
         (dest : option Error),
    dbIsInitialized w = true -> currentUpdate w = Some u ->
    lang u <> lang_ \/ (forceUpdate u = false /\ force = true) ->
    handle (ev_message (Some (update lang_ force)) dest) w
    = (Ok tt,
       set_currentUpdate
         (Some (mkCurrentUpdate lang_ Kanji (force || forceUpdate u))) w,
       [cancelUpdateWithRetry (series u)]
       ++ (if force || forceUpdate u then [clearCachedVersionInfo] else [])
       ++ [updateWithRetry Kanji lang_ (mkClosure lang_ force (forceUpdate u))]).
Proof.
  intros w lang_ force u dest Hi Hu Hdiff.
  assert (Ha : accepted w lang_ force = true).
  { unfold accepted. rewrite Hu. apply negb_true_iff.
    destruct Hdiff as [Hl|[Hf ->]].
    - apply String.eqb_neq in Hl. rewrite Hl. reflexivity.
    - rewrite Hf. apply andb_false_r. }
  simpl. apply try_catch_Ok.
  rewrite (updateAllSeries_accepted lang_ force w Hi Ha).
  unfold inherited_force, start_step. rewrite Hu. reflexivity.
Qed.

(** X4.  An update request never fails and posts no message: whatever the
    state, its only effects are calls that drive an update in the store
    ([cancelUpdateWithRetry], [clearCachedVersionInfo], [updateWithRetry]),
    it starts at most one step, and it leaves [db], [dbIsInitialized] and
    [lastUpdateError] as they are. *)
Theorem update_request_only_drives_store :
  forall (w : World) (lang_ : string) (force : bool) (dest : option Error),
    let r := handle (ev_message (Some (update lang_ force)) dest) w in
    result_of r = Ok tt
    /\ forallb is_update_call (effects_of r) = true
    /\ (List.length (steps_started (effects_of r)) <= 1)%nat
    /\ db (world_of r) = db w
    /\ dbIsInitialized (world_of r) = dbIsInitialized w
    /\ lastUpdateError (world_of r) = lastUpdateError w.
Proof.
  intros w lang_ force dest r. subst r. simpl.
  destruct (dbIsInitialized w) eqn:Hi.
  - destruct (accepted w lang_ force) eqn:Ha.
    + rewrite (try_catch_Ok _ _ _ _ _ _ (updateAllSeries_accepted lang_ force w Hi Ha)).
      cbn [result_of world_of effects_of fst snd]. unfold start_step.
      destruct w as [d i cu lue]. simpl.
      destruct cu, (force || _); simpl; repeat split; auto.
    + destruct (accepted_false w lang_ force Ha) as (u & Hu & Hl & Hf).
      rewrite (try_catch_Ok _ _ _ _ _ _
                 (updateAllSeries_duplicate lang_ force w u Hu Hl Hf)).
      simpl. repeat split; auto.
  - rewrite (try_catch_Ok _ _ _ _ _ _ (updateAllSeries_uninitialized lang_ force w Hi)).
    simpl. repeat split; auto.
Qed.

(** ** The completion callback *)

(** X5.  The completion callback of a request does not check that its job is
    still the one in the slot: when it is called after the job was cancelled,
    it finds the slot empty and starts a job again, at the kanji step, for the
    language of its own request, with the cache cleared first if that request
    was forced; it reports no step as done. *)
Theorem completion_after_cancel_starts_again :
  forall (w : World) (u : CurrentUpdate) (c : UpdateAllSeriesClosure)
         (dest : option Error),
    currentUpdate w = Some u ->
    run [ev_message (Some cancelupdate) dest; ev_updateComplete c] w
    = (Ok tt,
       set_currentUpdate
         (Some (mkCurrentUpdate (closure_lang c) Kanji
                  (closure_forceUpdate c || wasForcedUpdate c))) w,
       [cancelUpdateWithRetry (series u)]
       ++ (if closure_forceUpdate c || wasForcedUpdate c
           then [clearCachedVersionInfo] else [])
       ++ [updateWithRetry Kanji (closure_lang c) c]).
Proof.
  intros w u c dest Hu.
  assert (H1 : handle (ev_message (Some cancelupdate) dest) w
               = (Ok tt, set_currentUpdate None w,
                  [cancelUpdateWithRetry (series u)])).
  { simpl. apply cancelUpdate_running. exact Hu. }
  assert (H2 : handle (ev_updateComplete c) (set_currentUpdate None w)
               = (Ok tt,
                  set_currentUpdate
                    (Some (mkCurrentUpdate (closure_lang c) Kanji
                             (closure_forceUpdate c || wasForcedUpdate c))) w,
                  start_step c Kanji)).
  { simpl. rewrite (runNextUpdate_fresh c (set_currentUpdate None w) eq_refl).
    rewrite set_currentUpdate_twice. reflexivity. }
  rewrite (run_cons _ _ _ _ _ H1), (run_cons _ [] _ _ _ H2).
  simpl. rewrite app_nil_r. reflexivity.
Qed.

(** X6.  When a step other than the last completes while the store is
    resolved, the callback clears the recorded error, leaves a breadcrumb
    that names the completed series and publishes a snapshot before it
    advances: the snapshot carries no error and its phase is the update state
    of the series that has just completed.  The job keeps its language and
    its forced flag and moves to the next series; the next step is started
    for the language of the request the callback belongs to. *)
Theorem completion_reports_completed_series :
  forall (w : World) (c : UpdateAllSeriesClosure) (u : CurrentUpdate)
         (d : JpdictIdb) (s' : MajorDataSeries),
    currentUpdate w = Some u -> db w = Some d -> ~ unresolved w ->
    (series u = Kanji /\ s' = Names) \/ (series u = Names /\ s' = Words) ->
    exists snapshot,
      runNextUpdate c w
      = (Ok tt,
         set_currentUpdate (Some (mkCurrentUpdate (lang u) s' (forceUpdate u)))
           (set_lastUpdateError None w),
         [postMessage (leaveBreadcrumb
            ("Successfully updated " ++ series_toString (series u) ++ " database"));
          postMessage (notifyDbStateUpdated snapshot)]
         ++ (if closure_forceUpdate c || wasForcedUpdate c
             then [clearCachedVersionInfo] else [])
         ++ [updateWithRetry s' (closure_lang c) c])
      /\ state_updateError snapshot = None
      /\ state_updateState snapshot = updateState (db_series d (series u)).
Proof.
  intros w c u d s' Hu Hd Hres Hs.
  set (w1 := set_lastUpdateError None w).
  assert (Hres1 : ~ unresolved w1).
  { intros H. apply Hres. destruct w; exact H. }
  destruct (unresolved_dec w1) as [Hun|(d' & Hd' & Hi)]; [destruct (Hres1 Hun)|].
  destruct (doDbStateNotification_resolved w1 d' Hd' Hi) as (s & H1 & _ & H3 & H4).
  exists s. rewrite (runNextUpdate_advance c w u s' Hu Hs). fold w1.
  rewrite H1. cbn [effects_of snd]. unfold start_step.
  split; [reflexivity|]. split; [exact H3|].
  rewrite H4. unfold w1. destruct w; simpl in *. subst.
  injection Hd' as <-. reflexivity.
Qed.

(** ** The error callback, continued *)

Lemma onUpdateError_posts series now params w :
  let w' := set_lastUpdateError (Some (toUpdateErrorState params)) w in
  exists pre,
    onUpdateError series now params w
    = (Ok tt, w', pre ++ effects_of (doDbStateNotification w'))
    /\ forallb is_postMessage pre = true /\ snapshots pre = [].
Proof.
  intros w'.
  assert (Hd := doDbStateNotification_eta w').
  set (es := effects_of (doDbStateNotification w')) in *. clearbody es.
  unfold onUpdateError.
  destruct (nextRetry params) as [t|].
  - destruct (strict_equal (retryCount params) 5).
    + eexists [_; _].
      split; [unfold bind, effect, write, ret; fold w'; rewrite Hd; reflexivity
             |split; reflexivity].
    + eexists [_].
      split; [unfold bind, effect, write, ret; fold w'; rewrite Hd; reflexivity
             |split; reflexivity].
  - destruct (name (error params) =? "AbortError")%string;
      [|destruct (name (error params) =? "OfflineError")%string];
      eexists [_];
      (split; [unfold bind, effect, write, ret; cbn [negb andb]; fold w';
               rewrite Hd; reflexivity
              |split; reflexivity]).
Qed.

(** X7.  The error callback touches nothing but [lastUpdateError]: the job,
    [db] and [dbIsInitialized] stay as they are, and every effect is a posted
    message, so no step is cancelled or started.  Where the store is
    resolved it publishes exactly one snapshot, and that snapshot carries the
    error just reported. *)
Theorem error_callback_keeps_job :
  forall (series : DataSeries) (now : Z) (params : UpdateErrorParams) (w : World),
    let r := onUpdateError series now params w in
    currentUpdate (world_of r) = currentUpdate w
    /\ db (world_of r) = db w
    /\ dbIsInitialized (world_of r) = dbIsInitialized w
    /\ forallb is_postMessage (effects_of r) = true
    /\ (~ unresolved w ->
        exists snapshot,
          snapshots (effects_of r) = [snapshot]
          /\ state_updateError snapshot = Some (toUpdateErrorState params)).
Proof.
  intros series now params w r. subst r.
  destruct (onUpdateError_posts series now params w) as (pre & H & Hp & Hs).
  rewrite H. cbn [world_of effects_of fst snd].
  set (w' := set_lastUpdateError (Some (toUpdateErrorState params)) w) in *.
  split; [destruct w; reflexivity|]. split; [destruct w; reflexivity|].
  split; [destruct w; reflexivity|]. split.
  - rewrite forallb_app, Hp.
    destruct (doDbStateNotification_cases w') as [E|(s & E & _)]; rewrite E;
      reflexivity.
  - intros Hres.
    assert (Hres' : ~ unresolved w') by (intros U; apply Hres; destruct w; exact U).
    destruct (unresolved_dec w') as [Hun|(d & Hd & Hi)]; [destruct (Hres' Hun)|].
    destruct (doDbStateNotification_resolved w' d Hd Hi) as (s & H1 & _ & H3 & _).
    exists s. rewrite snapshots_app, Hs, H1. split; [reflexivity|].
    rewrite H3. destruct w; reflexivity.
Qed.

(** ** The remaining messages *)

(** X8.  A delete request calls [destroy] on the store if there is one, and
    reports a failure of that call as one error notification without
    severity.  It changes no variable: a running job stays in the slot, no
    step is cancelled, and [db] still holds the destroyed instance. *)
Theorem delete_request_destroys_store_only :
  forall (w : World) (destroyed : option Error),
    handle (ev_message (Some delete) destroyed) w
    = (Ok tt, w,
       match db w with
       | None => []
       | Some _ =>
           db_destroy
           :: match destroyed with
              | Some e => [postMessage (notifyError e None)]
              | None => []
              end
       end).
Proof.
  intros w destroyed. simpl. unfold bind, read.
  destruct (db w); [destruct destroyed|]; reflexivity.
Qed.

(** ** What no event does *)

Ltac triples := unfold result_of, world_of, effects_of in *; simpl in *.

Lemma runNextUpdate_world c w :
  db (world_of (runNextUpdate c w)) = db w
  /\ dbIsInitialized (world_of (runNextUpdate c w)) = dbIsInitialized w
  /\ (db w <> None -> result_of (runNextUpdate c w) = Ok tt).
Proof.
  destruct (currentUpdate w) as [u|] eqn:Hu.
  - destruct (series u) eqn:Hs.
    + destruct (db w) as [d|] eqn:Hd.
      * rewrite (runNextUpdate_last c w u d Hu Hs Hd).
        destruct w; triples; repeat split; auto.
      * rewrite (runNextUpdate_last_without_db c w u Hu Hs Hd).
        destruct w; triples; repeat split; auto. congruence.
    + rewrite (runNextUpdate_advance c w u Names Hu (or_introl (conj Hs eq_refl))).
      destruct w; triples; repeat split; auto.
    + rewrite (runNextUpdate_advance c w u Words Hu (or_intror (conj Hs eq_refl))).
      destruct w; triples; repeat split; auto.
  - rewrite (runNextUpdate_fresh c w Hu). destruct w; triples; repeat split; auto.
Qed.

Lemma handle_update_world lang_ force dest w :
  exists w' es,
    handle (ev_message (Some (update lang_ force)) dest) w = (Ok tt, w', es)
    /\ db w' = db w /\ dbIsInitialized w' = dbIsInitialized w.
Proof.
  simpl. destruct (dbIsInitialized w) eqn:Hi.
  - destruct (accepted w lang_ force) eqn:Ha.
    + rewrite (try_catch_Ok _ _ _ _ _ _ (updateAllSeries_accepted lang_ force w Hi Ha)).
      eexists. eexists. split; [reflexivity|].
      destruct w; simpl in *; split; auto.
    + destruct (accepted_false w lang_ force Ha) as (u & Hu & Hl & Hf).
      rewrite (try_catch_Ok _ _ _ _ _ _
                 (updateAllSeries_duplicate lang_ force w u Hu Hl Hf)).
      exists w, []. repeat split; auto.
  - rewrite (try_catch_Ok _ _ _ _ _ _ (updateAllSeries_uninitialized lang_ force w Hi)).
    exists w, []. repeat split; auto.
Qed.

(** Worker code never assigns [db] or [dbIsInitialized], and with a store it
    does not throw. *)
Lemma handle_world e w :
  (db w <> None -> result_of (handle e w) = Ok tt /\ db (world_of (handle e w)) <> None)
  /\ ((forall d, e <> ev_store d) ->
      db (world_of (handle e w)) = db w
      /\ dbIsInitialized (world_of (handle e w)) = dbIsInitialized w).
Proof.
  destruct e as [[[|l f| |]|] dest| |c|s now p|d].
  - simpl. unfold bind, read. destruct (dbIsInitialized w) eqn:Ei.
    + rewrite (doDbStateNotification_eta w). triples. auto.
    + triples. auto.
  - destruct (handle_update_world l f dest w) as (w' & es & H & Hd & Hi).
    rewrite H. triples. rewrite Hd, Hi. auto.
  - simpl. destruct (currentUpdate w) as [u|] eqn:Hu.
    + rewrite (cancelUpdate_running w u Hu). destruct w; triples; auto.
    + rewrite (cancelUpdate_idle w Hu). triples; auto.
  - simpl. unfold bind, read. destruct (db w) eqn:Hd; [destruct dest|];
      triples; rewrite ?Hd; auto.
  - triples. auto.
  - simpl. rewrite (doDbStateNotification_eta w). triples. auto.
  - simpl. destruct (runNextUpdate_world c w) as (Hd & Hi & Hr).
    rewrite Hd, Hi. auto.
  - simpl. destruct (onUpdateError_posts s now p w) as (pre & H & _).
    rewrite H. destruct w; triples; auto.
  - split.
    + intros Hd. destruct w as [[d0|] i cu lue]; triples;
        [split; [reflexivity|discriminate]|congruence].
    + intros H. destruct (H d eq_refl).
Qed.

(** X9.  With a store in [db] the worker never throws: every sequence of
    messages, callbacks, change notifications and rewrites of the store is
    handled to the end, and [db] still holds a store afterwards. *)
Theorem worker_never_throws_with_store :
  forall (events : list WorkerEvent) (w : World),
    db w <> None ->
    result_of (run events w) = Ok tt /\ db (world_of (run events w)) <> None.
Proof.
  induction events as [|e rest IH]; intros w Hd; [split; [reflexivity|exact Hd]|].
  destruct (proj1 (handle_world e w) Hd) as [Hr Hd1].
  assert (H : handle e w = (Ok tt, world_of (handle e w), effects_of (handle e w))).
  { rewrite <- Hr. apply triple_eta. }
  rewrite (run_cons e rest w _ _ H). cbn [result_of world_of fst snd].
  apply IH. exact Hd1.
Qed.

(** X10.  Worker code never assigns [db] or [dbIsInitialized] once [initDb]
    has settled: whatever messages and callbacks are handled, and whether or
    not one of them throws, both variables end as they started.  (Only the
    store itself, rewriting its records, changes what [db] reads.) *)
Theorem handlers_never_assign_db :
  forall (events : list WorkerEvent) (w : World),
    (forall d, ~ In (ev_store d) events) ->
    db (world_of (run events w)) = db w
    /\ dbIsInitialized (world_of (run events w)) = dbIsInitialized w.
Proof.
  induction events as [|e rest IH]; intros w Hno; [split; reflexivity|].
  assert (He : forall d, e <> ev_store d).
  { intros d E. apply (Hno d). left. exact E. }
  destruct (proj2 (handle_world e w) He) as [Hd Hi].
  simpl. unfold bind.
  destruct (handle e w) as [[[[]|err|] w1] o1]; cbn [world_of fst snd] in *.
  - destruct (IH w1) as [Hd' Hi'].
    { intros d Hin. apply (Hno d). right. exact Hin. }
    destruct (run rest w1) as [[r2 w2] o2]. cbn [world_of fst snd] in *.
    split; congruence.
  - split; assumption.
  - split; assumption.
Qed.

(** ** [getLatestCheckTime], continued *)

(** X11.  [getLatestCheckTime] never gives the epoch: a latest check time of
    0 reads as no check time.  A valid date it gives is the check time of one
    of the words, kanji and names datasets and is not before the check time of
    any of them; and if one of these check times is an invalid date, so is the
    result. *)
Theorem latest_check_time_is_a_major_check_time :
  forall d : JpdictIdb,
    getLatestCheckTime d <> Some (ValidDate 0)
    /\ (forall t,
          getLatestCheckTime d = Some (ValidDate t) ->
          (exists s, lastCheck (updateState (db_series d s)) = Some (ValidDate t))
          /\ forall s t',
               lastCheck (updateState (db_series d s)) = Some (ValidDate t') ->
               t' <= t)
    /\ ((exists s, lastCheck (updateState (db_series d s)) = Some InvalidDate) ->
        getLatestCheckTime d = Some InvalidDate).
Proof.
  intros d.
  unfold getLatestCheckTime, allMajorDataSeries, Math_max.
  cbn [map db_series fold_left].
  destruct (lastCheck (updateState (words d))) as [[a|]|] eqn:Ea;
    destruct (lastCheck (updateState (kanji d))) as [[b|]|] eqn:Eb;
    destruct (lastCheck (updateState (names d))) as [[c|]|] eqn:Ec;
    cbn [ToNumber getTime number_max number_is_not_zero new_Date].
  all: split; [|split].
  all: try match goal with
           | |- context [negb (?x =? 0)] =>
               destruct (Z.eqb_spec x 0) as [E0|E0]; cbn [negb]
           end.
  all: try (intros H; congruence).
  all: try (intros [s Hs]; destruct s; cbn [db_series] in Hs; congruence).
  all: try (intros [[]|[[]|[]]]; congruence).
  all: try reflexivity.
  all: try (intros t Ht; injection Ht as <-; split;
            [ repeat match goal with
                     | |- context [Z.max ?x ?y] =>
                         let H := fresh in
                         destruct (Z.max_spec x y) as [[? H]|[? H]];
                         rewrite H in *
                     end;
              first [ exists Words; cbn [db_series]; rewrite Ea; reflexivity
                    | exists Kanji; cbn [db_series]; rewrite Eb; reflexivity
                    | exists Names; cbn [db_series]; rewrite Ec; reflexivity
                    | exfalso; lia ]
            | intros s t' Hs; destruct s; cbn [db_series] in Hs;
              rewrite ?Ea, ?Eb, ?Ec in Hs; try discriminate;
              injection Hs as <-; lia ]).
  all: try (intros t Ht; discriminate).
Qed.

(** * More properties of the presenter *)

(** The calls of [updateBrowserAction]: the icon, the badge, the title. *)
Lemma updateBrowserAction_shape enabled st tabId toolbarIcon :
  exists iconFilename tooltip,
    updateBrowserAction enabled st tabId toolbarIcon
    = setIcon iconFilename tabId
      ++ (if showsUpdateError (jpdictState st)
          then [browserAction_setBadgeText "!" tabId]
               ++ composeAction (composeAction_setBadgeText "!")
               ++ [browserAction_setBadgeBackgroundColor "yellow" tabId]
               ++ composeAction (composeAction_setBadgeBackgroundColor "yellow")
          else [browserAction_setBadgeText "" tabId]
               ++ composeAction (composeAction_setBadgeText ""))
      ++ [throttledSetTitle tooltip tabId]
      ++ composeAction (composeAction_setTitle tooltip).
Proof.
  unfold updateBrowserAction.
  do 2 match goal with
       | |- context [let '(_, _) := ?X in _] =>
           let p := fresh "parts" in
           let t := fresh "tooltip" in
           destruct X as [p t]
       end.
  destruct (showsUpdateError (jpdictState st)); eexists; eexists; reflexivity.
Qed.

(** X12.  Where the browser has a compose action, every call on the toolbar
    button is followed by the same call on the compose action, without the
    tab: the icon, the badge text, the badge colour and the title.  Where it
    has none, no call is made on it. *)
Theorem composeAction_follows_browserAction :
  forall (enabled : bool) (st : JpdictStateWithFallback) (tabId : option Z)
         (toolbarIcon : ToolbarIcon),
    let calls := updateBrowserAction enabled st tabId toolbarIcon in
    let on_button := filter (fun c => negb (is_composeAction_call c)) calls in
    (has_composeAction = true ->
     calls = flat_map (fun c => [c; composeAction_counterpart c]) on_button)
    /\ (has_composeAction = false -> calls = on_button)
    /\ (3 <= List.length on_button <= 4)%nat.
Proof.
  intros enabled st tabId toolbarIcon calls on_button. subst on_button calls.
  destruct (updateBrowserAction_shape enabled st tabId toolbarIcon)
    as (iconFilename & tooltip & ->).
  unfold setIcon, composeAction.
  destruct (showsUpdateError (jpdictState st)), SUPPORTS_SVG_ICONS,
    has_composeAction; simpl; repeat split; try discriminate; try reflexivity; lia.
Qed.

(** X13.  The title is set once, and it follows the badge: whenever the
    badge is '!', the title is the update-error message, whatever else the
    state is.  Whenever the badge is cleared, the title is the checking
    message while a check runs, and the download message with the label of
    the series and the text of the progress in percent while a download runs.
    Otherwise it is the message of the base state: disabled when the reader
    is off; when it is on, enabled if the words or the fallback are 'ok', else
    loading if the words are 'init' or the fallback is 'loading', else enabled
    if the fallback is 'unloaded', and the error message in all other cases. *)
Theorem title_follows_badge_and_phase :
  forall (enabled : bool) (st : JpdictStateWithFallback) (tabId : option Z)
         (toolbarIcon : ToolbarIcon),
    let calls := updateBrowserAction enabled st tabId toolbarIcon in
    let jpdictWords := snapshot_state (state_words (jpdictState st)) in
    exists title,
      titles calls = [title]
      /\ (badge_texts calls = ["!"] ->
          title = getMessage "command_toggle_update_error" [])
      /\ (badge_texts calls = [""] ->
          title
          = match state_updateState (jpdictState st) with
            | checking _ _ => getMessage "command_toggle_checking" []
            | updating series totalProgress _ =>
                getMessage "command_toggle_downloading"
                  [getLocalizedDataSeriesLabel series;
                   progress_percent_text totalProgress]
            | idle _ =>
                if negb enabled then getMessage "command_toggle_disabled" []
                else if is_ok jpdictWords
                        || FallbackState_eqb (fallbackState st) fallback_ok
                then getMessage "command_toggle_enabled" []
                else if is_init jpdictWords
                        || FallbackState_eqb (fallbackState st) fallback_loading
                then getMessage "command_toggle_loading" []
                else if FallbackState_eqb (fallbackState st) fallback_unloaded
                then getMessage "command_toggle_enabled" []
                else getMessage "error_loading_dictionary" []
            end).
Proof.
  intros enabled st tabId toolbarIcon calls jpdictWords. subst calls jpdictWords.
  rewrite updateBrowserAction_badge.
  unfold updateBrowserAction, setIcon, composeAction.
  destruct (showsUpdateError (jpdictState st));
    destruct (state_updateState (jpdictState st)) as [lc|series lc|series p lc];
    destruct enabled;
    try (destruct (snapshot_state (state_words (jpdictState st)));
         destruct (fallbackState st));
    destruct toolbarIcon, SUPPORTS_SVG_ICONS, has_composeAction;
    cbn [is_ok is_init FallbackState_eqb orb existsb String.eqb Ascii.eqb
         Bool.eqb negb app titles];
    (eexists; split; [reflexivity|split; intros H; try discriminate H; reflexivity]).
Qed.

(** X14.  Outside a download the icon is named after the style and the base
    state: 'disabled' when the reader is off, 'error' when it is on and there
    is no dictionary (the words are neither 'ok' nor 'init' and the fallback
    is neither 'ok', 'loading' nor 'unloaded'), and nothing more otherwise.
    While a check runs, '0p' and the colour of the series are added, also to
    the error icon. *)
Theorem icon_outside_download :
  forall (enabled : bool) (st : JpdictStateWithFallback) (tabId : option Z)
         (toolbarIcon : ToolbarIcon),
    let base :=
      (style_icon toolbarIcon
       ++ (if enabled then (if no_dictionary st then "-error" else "")
           else "-disabled"))%string in
    match state_updateState (jpdictState st) with
    | idle _ =>
        icons (updateBrowserAction enabled st tabId toolbarIcon)
        = icons (setIcon base tabId)
    | checking series _ =>
        icons (updateBrowserAction enabled st tabId toolbarIcon)
        = icons (setIcon (String.concat "-" [base; "0p"; seriesColors series]) tabId)
    | updating _ _ _ => True
    end.
Proof.
  intros enabled st tabId toolbarIcon.
  unfold updateBrowserAction, setIcon, composeAction, no_dictionary, style_icon.
  destruct (showsUpdateError (jpdictState st));
    destruct (state_updateState (jpdictState st)) as [lc|series lc|series p lc];
    try exact I;
    destruct enabled;
    try (destruct (snapshot_state (state_words (jpdictState st)));
         destruct (fallbackState st));
    destruct toolbarIcon, SUPPORTS_SVG_ICONS, has_composeAction;
    try destruct series as [[| |]|];
    reflexivity.
Qed.

(** X15.  While a download runs, the icon is the base icon followed by the
    text of the progress step with 'p' and by the colour of the series; the
    error icon, shown when the reader is on and there is no dictionary, gets
    no progress overlay. *)
Theorem icon_during_download :
  forall (enabled : bool) (st : JpdictStateWithFallback) (tabId : option Z)
         (toolbarIcon : ToolbarIcon),
    let base :=
      (style_icon toolbarIcon
       ++ (if enabled then (if no_dictionary st then "-error" else "")
           else "-disabled"))%string in
    match state_updateState (jpdictState st) with
    | updating series totalProgress _ =>
        icons (updateBrowserAction enabled st tabId toolbarIcon)
        = icons (setIcon
                   (if enabled && no_dictionary st then base
                    else String.concat "-"
                           [base;
                            (progress_step_text totalProgress ++ "p")%string;
                            seriesColors series])
                   tabId)
    | idle _ | checking _ _ => True
    end.
Proof.
  intros enabled st tabId toolbarIcon.
  unfold updateBrowserAction, setIcon, composeAction, no_dictionary, style_icon.
  destruct (state_updateState (jpdictState st)) as [lc|series lc|series p lc];
    try exact I.
  set (step := progress_step_text p).
  destruct (showsUpdateError (jpdictState st));
    destruct enabled;
    try (destruct (snapshot_state (state_words (jpdictState st)));
         destruct (fallbackState st));
    destruct toolbarIcon, SUPPORTS_SVG_ICONS, has_composeAction;
    reflexivity.
Qed.

(** X16.  [setDefaultToolbarIcon] sets a disabled icon, for no tab, of the
    other style than the one it is given: with 'sky' the disabled icon that
    [updateBrowserAction] shows for the default style, with 'default' the one
    it shows for the sky style. *)
Theorem setDefaultToolbarIcon_sets_other_style :
  forall (st : JpdictStateWithFallback) (lc : option Date),
    state_updateState (jpdictState st) = idle lc ->
    icons (setDefaultToolbarIcon toolbarIcon_sky)
    = icons (updateBrowserAction false st None toolbarIcon_default)
    /\ icons (setDefaultToolbarIcon toolbarIcon_default)
       = icons (updateBrowserAction false st None toolbarIcon_sky).
Proof.
  intros st lc Hu.
  unfold setDefaultToolbarIcon, updateBrowserAction, setIcon, composeAction.
  rewrite Hu.
  destruct (showsUpdateError (jpdictState st)), SUPPORTS_SVG_ICONS,
    has_composeAction; split; reflexivity.
Qed.
End Worker.

Arguments ev_message {DataVersion} data destroyed.
Arguments ev_changed {DataVersion}.
Arguments ev_updateComplete {DataVersion} callbacks.
Arguments ev_updateError {DataVersion} series now params.
Arguments new_JpdictIdb {DataVersion}.
Arguments addChangeListener {DataVersion}.
Arguments db_destroy {DataVersion}.
Arguments requestIdleCallbackPromise {DataVersion} timeout.
Arguments console_log {DataVersion} text.
Arguments clearCachedVersionInfo {DataVersion}.
Arguments updateWithRetry {DataVersion} series lang callbacks.
Arguments cancelUpdateWithRetry {DataVersion} series.
Arguments notifyDbUpdateComplete {DataVersion} lastCheck.
Arguments notifyError {DataVersion} error severity.
Arguments leaveBreadcrumb {DataVersion} message.
Arguments initial_World {DataVersion}.
Arguments db_all {DataVersion} s.
Arguments db_radicals_checked {DataVersion}.
Arguments db_checked {DataVersion}.
Arguments store_never_opens {DataVersion}.
Arguments info {DataVersion} s check.
Arguments Throw {A} e.
Arguments OutOfFuel {A}.
Arguments store_opens_at {DataVersion} k destroy_fails.
Arguments sample_snapshot {DataVersion} s u e.

(** * The theorems at sample inputs *)


Lemma duplicate_request_is_noop_witness :
  updateAllSeries "en" false
    (world_running (@db_all unit state_ok) (mkCurrentUpdate "en" Names false))
  = (Ok tt,
     world_running (@db_all unit state_ok) (mkCurrentUpdate "en" Names false),
     []).
Proof.
  apply (duplicate_request_is_noop unit sample_toUpdateErrorState
           (world_running (@db_all unit state_ok) (mkCurrentUpdate "en" Names false))
           "en" false (mkCurrentUpdate "en" Names false) None 3%nat);
    [reflexivity | reflexivity | right; reflexivity].
Defined.

(** A forced job for "en" is superseded by a request for "fr" that is not
    forced. *)
Lemma forced_cycle_clears_cached_version_info_witness :
  currentUpdate
    (world_of
       (updateAllSeries "fr" false
          (world_running (@db_all unit state_ok) (mkCurrentUpdate "en" Words true))))
  = Some (mkCurrentUpdate "fr" Kanji true).
Proof.
  apply (forced_cycle_clears_cached_version_info unit
           (world_running (@db_all unit state_ok) (mkCurrentUpdate "en" Words true))
           "fr" false);
    [reflexivity | reflexivity | right; reflexivity].
Defined.

Lemma cancelUpdate_clears_job_at_once_witness :
  exists s,
    snapshots
      (effects_of
         (run sample_toUpdateErrorState
            [ev_message (Some cancelupdate) None; ev_message (Some querystate) None]
            (world_running (@db_all unit state_ok)
               (mkCurrentUpdate "en" Names false))))
    = [s]
    /\ state_updateState s = idle (getLatestCheckTime (@db_all unit state_ok)).
Proof.
  apply (cancelUpdate_clears_job_at_once unit sample_toUpdateErrorState
           (world_running (@db_all unit state_ok) (mkCurrentUpdate "en" Names false))
           None None);
    [reflexivity | reflexivity |].
  unfold unresolved. simpl. intros [H|[H|[H|H]]]; discriminate.
Defined.

Lemma snapshot_withheld_while_uninitialized_witness :
  doDbStateNotification (world_idle (@db_all unit state_init))
  = (Ok tt, world_idle (@db_all unit state_init), []).
Proof.
  apply (proj1 (snapshot_withheld_while_uninitialized unit sample_toUpdateErrorState)).
  unfold unresolved. simpl. left. reflexivity.
Defined.

Lemma retry_warning_at_fifth_retry_only_witness :
  errors_notified
    (effects_of
       (onUpdateError sample_toUpdateErrorState Kanji 1000
          (mkUpdateErrorParams sample_error (Some (ValidDate 4000)) (Some 5))
          (world_running (@db_all unit state_ok) (mkCurrentUpdate "en" Kanji false))))
  = [(sample_error, Some warning)].
Proof.
  apply (retry_warning_at_fifth_retry_only unit sample_toUpdateErrorState Kanji 1000
           (mkUpdateErrorParams sample_error (Some (ValidDate 4000)) (Some 5))
           (world_running (@db_all unit state_ok) (mkCurrentUpdate "en" Kanji false))
           (ValidDate 4000));
    reflexivity.
Defined.

Lemma terminal_error_classified_by_name_witness :
  errors_notified
    (effects_of
       (onUpdateError sample_toUpdateErrorState Kanji 1000
          (mkUpdateErrorParams (mkError "OfflineError" "offline") None None)
          (world_running (@db_all unit state_ok) (mkCurrentUpdate "en" Kanji false))))
  = [].
Proof.
  apply (terminal_error_classified_by_name unit sample_toUpdateErrorState Kanji 1000
           (mkUpdateErrorParams (mkError "OfflineError" "offline") None None)
           (world_running (@db_all unit state_ok) (mkCurrentUpdate "en" Kanji false)));
    [reflexivity | right; reflexivity].
Defined.

(** Words checked at 50, kanji at 70, radicals at 100, names never: the
    latest check time is that of the kanji. *)
Lemma published_phase_witness :
  getLatestCheckTime (@db_checked unit) = Some (ValidDate 70)
  /\ getLatestCheckTime (@db_checked unit)
     = option_map ValidDate
         (max_lastCheck
            [check_time (words (@db_checked unit));
             check_time (kanji (@db_checked unit));
             check_time (names (@db_checked unit))]).
Proof.
  split; [reflexivity|].
  destruct (published_phase unit (world_idle (@db_checked unit)) (@db_checked unit))
    as (_ & _ & H & _).
  - reflexivity.
  - unfold unresolved. simpl. intros [H|[H|[H|H]]]; discriminate.
  - apply H; [reflexivity | reflexivity | exact I].
Defined.

Lemma store_opening_bounded_witness :
  dbIsInitialized
    (world_of (init_dbIsInitialized (@store_never_opens unit) 4 initial_World))
  = false.
Proof.
  apply (store_opening_bounded unit sample_toUpdateErrorState
           (@store_never_opens unit) 4%nat);
    [lia | intros k _; discriminate].
Defined.

Lemma error_badge_requires_not_ok_database_witness :
  badge_texts
    (updateBrowserAction true false series_toString
       sample_step_text sample_percent_text true
       (mkJpdictStateWithFallback
          (mkJpdictState
             (mkDataSeriesSnapshot state_ok (@None unit))
             (mkDataSeriesSnapshot state_ok None)
             (mkDataSeriesSnapshot state_empty None)
             (mkDataSeriesSnapshot state_ok None)
             (idle None)
             (Some (sample_toUpdateErrorState
                      (mkUpdateErrorParams sample_error None None))))
          fallback_ok)
       (Some 1) toolbarIcon_default)
  = [""].
Proof.
  apply (error_badge_requires_not_ok_database unit true false series_toString
       sample_step_text sample_percent_text true
           (mkJpdictStateWithFallback
              (mkJpdictState
                 (mkDataSeriesSnapshot state_ok (@None unit))
                 (mkDataSeriesSnapshot state_ok None)
                 (mkDataSeriesSnapshot state_empty None)
                 (mkDataSeriesSnapshot state_ok None)
                 (idle None)
                 (Some (sample_toUpdateErrorState
                          (mkUpdateErrorParams sample_error None None))))
              fallback_ok)
           (Some 1) toolbarIcon_default);
    reflexivity.
Defined.

(** * Where the code differs *)


(** The idle phase ignores the check time of the radicals: with a ready
    store and no job, where only the radicals have a check time (100), the
    snapshot published carries no check time, while the latest check time
    across the four datasets is 100. *)
Lemma idle_phase_ignores_radicals_check_time :
  map (@state_updateState unit)
      (snapshots
         (effects_of (doDbStateNotification (world_idle (@db_radicals_checked unit)))))
  = [idle None]
  /\ max_lastCheck
       [check_time (words (@db_radicals_checked unit));
        check_time (kanji (@db_radicals_checked unit));
        check_time (radicals (@db_radicals_checked unit));
        check_time (names (@db_radicals_checked unit))]
     = Some 100
  /\ idle None <> idle (option_map ValidDate (Some 100)).
Proof.
  split; [reflexivity|]. split; [reflexivity|]. discriminate.
Qed.

(** A snapshot is published after four failed attempts to open the store:
    the change listener stays registered on the last instance and [db] still
    holds it, so a change notification of that instance, whose datasets are
    in the error state, publishes one. *)
Lemma snapshot_published_after_failed_opening :
  instances_created
    (effects_of (init_dbIsInitialized (@store_never_opens unit) 4 initial_World))
  = 4%nat
  /\ dbIsInitialized
       (world_of (init_dbIsInitialized (@store_never_opens unit) 4 initial_World))
     = false
  /\ List.length
       (snapshots
          (effects_of
             (run sample_toUpdateErrorState [ev_changed]
                (world_of
                   (init_dbIsInitialized (@store_never_opens unit) 4 initial_World)))))
     = 1%nat.
Proof.
  split; [reflexivity|]. split; reflexivity.
Qed.

(** * The further theorems at sample inputs *)

(** Two failed attempts, destroying fails too; the third attempt opens. *)
Lemma initDb_opens_after_failures_witness :
  dbIsInitialized
    (world_of (init_dbIsInitialized (@store_opens_at unit 2 true) 4 initial_World))
  = true
  /\ instances_created
       (effects_of (init_dbIsInitialized (@store_opens_at unit 2 true) 4 initial_World))
     = 3%nat
  /\ destroys
       (effects_of (init_dbIsInitialized (@store_opens_at unit 2 true) 4 initial_World))
     = 2%nat.
Proof.
  destruct (initDb_opens_after_failures unit (@store_opens_at unit 2 true) 2 4%nat)
    as (_ & H1 & _ & H2 & H3).
  - lia.
  - intros j Hj. simpl. replace (j <? 2) with true by (symmetry; apply Z.ltb_lt; lia).
    discriminate.
  - reflexivity.
  - simpl. lia.
  - repeat split; assumption.
Defined.

Lemma initDb_ignores_destroy_failures_witness :
  result_of (initDb (@store_opens_at unit 2 true) 4 initial_World)
  = result_of (initDb (@store_opens_at unit 2 false) 4 initial_World)
  /\ without_logs (effects_of (initDb (@store_opens_at unit 2 true) 4 initial_World))
     = without_logs (effects_of (initDb (@store_opens_at unit 2 false) 4 initial_World)).
Proof.
  destruct (initDb_ignores_destroy_failures unit
              (@store_opens_at unit 2 true) (@store_opens_at unit 2 false)
              (fun _ => eq_refl) (fun _ => eq_refl) 4%nat initial_World)
    as (H1 & _ & H2).
  split; assumption.
Defined.

Lemma superseding_request_cancels_running_step_witness :
  effects_of
    (handle sample_toUpdateErrorState (ev_message (Some (update "fr" false)) None)
       (world_running (@db_all unit state_ok) (mkCurrentUpdate "en" Names true)))
  = [cancelUpdateWithRetry Names; clearCachedVersionInfo;
     updateWithRetry Kanji "fr" (mkClosure "fr" false true)].
Proof.
  rewrite (superseding_request_cancels_running_step unit sample_toUpdateErrorState
             (world_running (@db_all unit state_ok) (mkCurrentUpdate "en" Names true))
             "fr" false (mkCurrentUpdate "en" Names true) None);
    [reflexivity | reflexivity | reflexivity | left; discriminate].
Defined.

Lemma completion_after_cancel_starts_again_witness :
  currentUpdate
    (world_of
       (run sample_toUpdateErrorState
          [ev_message (Some cancelupdate) None;
           ev_updateComplete (mkClosure "en" false false)]
          (world_running (@db_all unit state_ok) (mkCurrentUpdate "en" Names false))))
  = Some (mkCurrentUpdate "en" Kanji false).
Proof.
  rewrite (completion_after_cancel_starts_again unit sample_toUpdateErrorState
             (world_running (@db_all unit state_ok) (mkCurrentUpdate "en" Names false))
             (mkCurrentUpdate "en" Names false) (mkClosure "en" false false) None);
    reflexivity.
Defined.

Lemma completion_reports_completed_series_witness :
  exists snapshot,
    snapshots
      (effects_of
         (runNextUpdate (mkClosure "en" false false)
            (world_running (@db_checked unit) (mkCurrentUpdate "en" Kanji false))))
    = [snapshot]
    /\ state_updateState snapshot = idle (Some (ValidDate 70)).
Proof.
  destruct (completion_reports_completed_series unit
              (world_running (@db_checked unit) (mkCurrentUpdate "en" Kanji false))
              (mkClosure "en" false false) (mkCurrentUpdate "en" Kanji false)
              (@db_checked unit) Names)
    as (s & H & _ & Hs).
  - reflexivity.
  - reflexivity.
  - unfold unresolved. simpl. intros [E|[E|[E|E]]]; discriminate.
  - left. split; reflexivity.
  - exists s. rewrite H. split; [reflexivity|exact Hs].
Defined.

Lemma error_callback_keeps_job_witness :
  currentUpdate
    (world_of
       (onUpdateError sample_toUpdateErrorState Kanji 1000
          (mkUpdateErrorParams sample_error None None)
          (world_running (@db_all unit state_ok) (mkCurrentUpdate "en" Kanji false))))
  = Some (mkCurrentUpdate "en" Kanji false)
  /\ exists snapshot,
       snapshots
         (effects_of
            (onUpdateError sample_toUpdateErrorState Kanji 1000
               (mkUpdateErrorParams sample_error None None)
               (world_running (@db_all unit state_ok)
                  (mkCurrentUpdate "en" Kanji false))))
       = [snapshot]
       /\ state_updateError snapshot
          = Some (sample_toUpdateErrorState
                    (mkUpdateErrorParams sample_error None None)).
Proof.
  destruct (error_callback_keeps_job unit sample_toUpdateErrorState Kanji 1000
              (mkUpdateErrorParams sample_error None None)
              (world_running (@db_all unit state_ok) (mkCurrentUpdate "en" Kanji false)))
    as (H1 & _ & _ & _ & H2).
  split; [exact H1|]. apply H2.
  unfold unresolved. simpl. intros [E|[E|[E|E]]]; discriminate.
Defined.

(** A delete whose [destroy] fails, then a completion of the words step. *)
Lemma worker_never_throws_with_store_witness :
  result_of
    (run sample_toUpdateErrorState
       [ev_message (Some delete) (Some sample_error);
        ev_updateComplete (mkClosure "en" false false)]
       (world_running (@db_all unit state_ok) (mkCurrentUpdate "en" Words false)))
  = Ok tt.
Proof.
  apply (worker_never_throws_with_store unit sample_toUpdateErrorState
           [ev_message (Some delete) (Some sample_error);
            ev_updateComplete (mkClosure "en" false false)]
           (world_running (@db_all unit state_ok) (mkCurrentUpdate "en" Words false))).
  discriminate.
Defined.

Lemma handlers_never_assign_db_witness :
  db (world_of
        (run sample_toUpdateErrorState
           [ev_message (Some delete) None; ev_message (Some cancelupdate) None]
           (world_running (@db_all unit state_ok) (mkCurrentUpdate "en" Words false))))
  = Some (@db_all unit state_ok).
Proof.
  apply (handlers_never_assign_db unit sample_toUpdateErrorState
           [ev_message (Some delete) None; ev_message (Some cancelupdate) None]
           (world_running (@db_all unit state_ok) (mkCurrentUpdate "en" Words false))).
  intros d [E|[E|[]]]; discriminate.
Defined.

Lemma latest_check_time_is_a_major_check_time_witness :
  exists s, lastCheck (updateState (db_series (@db_checked unit) s))
            = Some (ValidDate 70).
Proof.
  apply (latest_check_time_is_a_major_check_time unit (@db_checked unit)).
  reflexivity.
Defined.

Lemma composeAction_follows_browserAction_witness :
  filter is_composeAction_call
    (updateBrowserAction true true series_toString
       sample_step_text sample_percent_text true
       (@sample_snapshot unit state_ok (idle None) None) (Some 1) toolbarIcon_default)
  = map composeAction_counterpart
      (filter (fun c => negb (is_composeAction_call c))
         (updateBrowserAction true true series_toString
       sample_step_text sample_percent_text true
            (@sample_snapshot unit state_ok (idle None) None) (Some 1)
            toolbarIcon_default)).
Proof.
  rewrite (proj1 (composeAction_follows_browserAction unit true true series_toString
       sample_step_text sample_percent_text
                    true (@sample_snapshot unit state_ok (idle None) None) (Some 1)
                    toolbarIcon_default) eq_refl) at 1.
  reflexivity.
Defined.

(** A check of the kanji runs while an update error is recorded and the
    datasets are empty: the title is the update-error message. *)
Lemma title_follows_badge_and_phase_witness :
  titles
    (updateBrowserAction true false series_toString
       sample_step_text sample_percent_text true
       (@sample_snapshot unit state_empty (checking Kanji None)
          (Some (sample_toUpdateErrorState
                   (mkUpdateErrorParams sample_error None None))))
       (Some 1) toolbarIcon_default)
  = [getMessage "command_toggle_update_error" []].
Proof.
  destruct (title_follows_badge_and_phase unit true false series_toString
       sample_step_text sample_percent_text true
              (@sample_snapshot unit state_empty (checking Kanji None)
                 (Some (sample_toUpdateErrorState
                          (mkUpdateErrorParams sample_error None None))))
              (Some 1) toolbarIcon_default)
    as (t & Ht & Hbadge & _).
  rewrite Ht. rewrite (Hbadge eq_refl). reflexivity.
Defined.

Lemma setDefaultToolbarIcon_sets_other_style_witness :
  icons (setDefaultToolbarIcon true false toolbarIcon_sky)
  = [path_svg "images/10ten-disabled.svg"].
Proof.
  rewrite (proj1 (setDefaultToolbarIcon_sets_other_style unit true false
                    series_toString
       sample_step_text sample_percent_text
                    (@sample_snapshot unit state_ok (idle None) None) None eq_refl)).
  reflexivity.
Defined.
